(** * LearnThreeJS: the FoundationScene lifecycle manager and the typed factories

    A shallow embedding of the class [FoundationScene] of phase01 and of
    the class [TypedGeometryFactory] of Phase02, with the properties of
    the specification stated over it.

    What the embedding keeps and what it leaves out:
    - the three.js library is a collaborator, not part of the repository.
      Of [THREE.Scene] only the list of children is kept, with the two
      methods the manager calls ([add], [remove]); of [THREE.Vector3] the
      three coordinates, stored in a heap so that copying and sharing can
      be told apart; of the cameras the constructor arguments;
    - the host page is kept as the data the manager touches: the frame
      requests that are scheduled, the canvas being mounted or not, the
      resize listener being installed or not;
    - JavaScript numbers are only stored and passed on by the functions
      embedded here, never computed with; they are carried as rationals;
    - [console.log] output is not modelled. *)

From stdpp Require Import base option list strings gmap fin_maps.
From Stdlib Require Import QArith.
Local Open Scope string_scope.

(** ** Scene graph *)

Module Three.

(** A scene-graph node: one JavaScript object, given by its identity
    ([address], what [===] and [indexOf] compare) together with the
    [uuid] three.js generated for it, which nothing here writes. The
    scene root itself is not a value of this type: [Object3D.add]
    refuses to add an object to itself. *)
Record Object3D := mkObject3D {
  address : positive;
  uuid : string
}.

#[global] Instance Object3D_eq_dec : EqDecision Object3D.
Proof. solve_decision. Defined.

(** [const index = this.children.indexOf(object);
     if (index !== -1) this.children.splice(index, 1)] *)
Fixpoint remove (object : Object3D) (children : list Object3D) : list Object3D :=
  match children with
  | [] => []
  | c :: rest => if decide (c = object) then rest else c :: remove object rest
  end.

(** [object.removeFromParent(); this.children.push(object)]: a node has
    one parent, so a node that is already a child of this scene is
    detached first and then appended. *)
Definition add (object : Object3D) (children : list Object3D) : list Object3D :=
  remove object children ++ [object].

End Three.

Import Three.

(** ** The host page *)

(** Identity of a per-frame closure registered with [addAnimation]. The
    closures belong to the caller; what they do to the caller's own data
    is outside the manager. *)
Definition AnimationFn := nat.

Record Host := mkHost {
  nextRequestId : nat;            (* the id the next requestAnimationFrame returns *)
  scheduled : list nat;           (* frame requests neither run nor cancelled *)
  frames : list (list AnimationFn); (* one entry per renderer.render call: the closures run before it *)
  rendererDisposed : bool;        (* renderer.dispose() has been called *)
  canvasMounted : bool;           (* renderer.domElement.parentNode is not null *)
  resizeListening : bool          (* the manager's 'resize' listener is registered on window *)
}.

(** [requestAnimationFrame(cb)] *)
Definition requestAnimationFrame (h : Host) : nat * Host :=
  (nextRequestId h,
   mkHost (S (nextRequestId h)) (scheduled h ++ [nextRequestId h]) (frames h)
          (rendererDisposed h) (canvasMounted h) (resizeListening h)).

(** [cancelAnimationFrame(id)] *)
Definition cancelAnimationFrame (id : nat) (h : Host) : Host :=
  mkHost (nextRequestId h) (filter (λ r, r ≠ id) (scheduled h)) (frames h)
         (rendererDisposed h) (canvasMounted h) (resizeListening h).

(** ** FoundationScene *)

(** The private fields of the class, the children of [this.scene], and
    the host. [camera] and [renderer] are read-only and none of the
    methods below changes them; [clock] only feeds the closures. *)
Record FoundationScene := mkFoundationScene {
  scene : list Object3D;
  animationId : option nat;
  animatedObjects : list (string * AnimationFn);
  isInitialized : bool;
  isDisposed : bool;
  managedObjects : gmap string Object3D;
  resizeHandler : bool;
  host : Host
}.

Definition set_scene (f : list Object3D → list Object3D) (s : FoundationScene) :=
  mkFoundationScene (f (scene s)) (animationId s) (animatedObjects s)
    (isInitialized s) (isDisposed s) (managedObjects s) (resizeHandler s) (host s).

Definition set_animationId (a : option nat) (s : FoundationScene) :=
  mkFoundationScene (scene s) a (animatedObjects s)
    (isInitialized s) (isDisposed s) (managedObjects s) (resizeHandler s) (host s).

Definition set_animatedObjects
    (f : list (string * AnimationFn) → list (string * AnimationFn)) (s : FoundationScene) :=
  mkFoundationScene (scene s) (animationId s) (f (animatedObjects s))
    (isInitialized s) (isDisposed s) (managedObjects s) (resizeHandler s) (host s).

Definition set_isInitialized (b : bool) (s : FoundationScene) :=
  mkFoundationScene (scene s) (animationId s) (animatedObjects s)
    b (isDisposed s) (managedObjects s) (resizeHandler s) (host s).

Definition set_isDisposed (b : bool) (s : FoundationScene) :=
  mkFoundationScene (scene s) (animationId s) (animatedObjects s)
    (isInitialized s) b (managedObjects s) (resizeHandler s) (host s).

Definition set_managedObjects
    (f : gmap string Object3D → gmap string Object3D) (s : FoundationScene) :=
  mkFoundationScene (scene s) (animationId s) (animatedObjects s)
    (isInitialized s) (isDisposed s) (f (managedObjects s)) (resizeHandler s) (host s).

Definition set_resizeHandler (b : bool) (s : FoundationScene) :=
  mkFoundationScene (scene s) (animationId s) (animatedObjects s)
    (isInitialized s) (isDisposed s) (managedObjects s) b (host s).

Definition set_host (f : Host → Host) (s : FoundationScene) :=
  mkFoundationScene (scene s) (animationId s) (animatedObjects s)
    (isInitialized s) (isDisposed s) (managedObjects s) (resizeHandler s) (f (host s)).

(** A JavaScript [Map] iterates in insertion order: [set] on a key that
    is present replaces the value where it stands, a new key goes last. *)
Fixpoint map_set {A} (k : string) (v : A) (m : list (string * A)) : list (string * A) :=
  match m with
  | [] => [(k, v)]
  | (k', v') :: rest =>
      if decide (k' = k) then (k, v) :: rest else (k', v') :: map_set k v rest
  end.

Definition map_delete {A} (k : string) (m : list (string * A)) : list (string * A) :=
  filter (λ e, e.1 ≠ k) m.

(** [const objectId = id || object.uuid]: the empty string is falsy. *)
Definition resolveId (object : Object3D) (id : option string) : string :=
  match id with
  | Some i => if decide (i = "") then uuid object else i
  | None => uuid object
  end.

(** [addObject(object, id?)] *)
Definition addObject (object : Object3D) (id : option string) (s : FoundationScene)
    : string * FoundationScene :=
  let objectId := resolveId object id in
  let s := set_scene (add object) s in
  let s := set_managedObjects (insert objectId object) s in
  (objectId, s).

(** [removeObject(id)]: a node is an object, hence truthy, so [if (object)]
    is the test that the key is present. *)
Definition removeObject (id : string) (s : FoundationScene) : bool * FoundationScene :=
  match managedObjects s !! id with
  | Some object =>
      let s := set_scene (remove object) s in
      let s := set_managedObjects (delete id) s in
      (true, s)
  | None => (false, s)
  end.

(** [addAnimation(id, animationFn)] *)
Definition addAnimation (id : string) (animationFn : AnimationFn) (s : FoundationScene) :=
  set_animatedObjects (map_set id animationFn) s.

(** [removeAnimation(id)] *)
Definition removeAnimation (id : string) (s : FoundationScene) :=
  set_animatedObjects (map_delete id) s.

(** The closure [animate] of [startAnimation]: request the next frame and
    keep its id, run every registered closure, render. *)
Definition animate (s : FoundationScene) : FoundationScene :=
  let '(id, h) := requestAnimationFrame (host s) in
  let s := set_animationId (Some id) (set_host (λ _, h) s) in
  set_host (λ h, mkHost (nextRequestId h) (scheduled h)
                        (frames h ++ [(animatedObjects s).*2])
                        (rendererDisposed h) (canvasMounted h) (resizeListening h)) s.

(** [startAnimation()] *)
Definition startAnimation (s : FoundationScene) : FoundationScene :=
  match animationId s with
  | Some _ => s
  | None => animate s
  end.

(** [stopAnimation()] *)
Definition stopAnimation (s : FoundationScene) : FoundationScene :=
  match animationId s with
  | Some id => set_animationId None (set_host (cancelAnimationFrame id) s)
  | None => s
  end.

(** [dispose()] *)
Definition dispose (s : FoundationScene) : FoundationScene :=
  if isDisposed s then s else
  let s := stopAnimation s in
  let s := set_scene (λ children,
             map_fold (λ _ obj ch, remove obj ch) children (managedObjects s)) s in
  let s := set_managedObjects (λ _, ∅) s in
  let s := set_host (λ h, mkHost (nextRequestId h) (scheduled h) (frames h)
                                 true false
                                 (if resizeHandler s then false
                                  else resizeListening h)) s in
  set_isDisposed true s.

(** [initialize()], called once by the constructor: mount the canvas,
    install the resize listener when [config.autoResize] is set. *)
Definition initialize (autoResize : bool) (s : FoundationScene) : FoundationScene :=
  if isInitialized s then s else
  let s := set_host (λ h, mkHost (nextRequestId h) (scheduled h) (frames h)
                                 (rendererDisposed h) true (resizeListening h)) s in
  let s := if autoResize
           then set_resizeHandler true
                  (set_host (λ h, mkHost (nextRequestId h) (scheduled h) (frames h)
                                         (rendererDisposed h) (canvasMounted h) true) s)
           else s in
  set_isInitialized true s.

(** The constructor, as far as the fields above go: the field
    initialisers, an empty [THREE.Scene], then [initialize()]. *)
Definition newFoundationScene (autoResize : bool) (h : Host) : FoundationScene :=
  initialize autoResize (mkFoundationScene [] None [] false false ∅ false h).

(** The browser running the frame request [id]: a request that was
    cancelled is not run; one that runs leaves the schedule and calls
    [animate]. *)
Definition runFrame (id : nat) (s : FoundationScene) : FoundationScene :=
  if decide (id ∈ scheduled (host s))
  then animate (set_host (cancelAnimationFrame id) s)
  else s.

(** A page on which nothing has happened yet. *)
Definition freshHost : Host := mkHost 0 [] [] false false false.

(** On a page where only this manager requests frames: the requests
    that are scheduled are the one whose handle the manager keeps, or
    none when it keeps no handle. *)
Definition singleLoop (s : FoundationScene) : Prop :=
  scheduled (host s) = match animationId s with Some id => [id] | None => [] end.

(** Every node of the registry is a child of the scene. *)
Definition registryAttached (s : FoundationScene) : Prop :=
  map_Forall (λ _ object, object ∈ scene s) (managedObjects s).

#[global] Instance registryAttached_dec s : Decision (registryAttached s).
Proof. unfold registryAttached. apply _. Defined.

(** ** Errors *)

(** A call returns a value or throws an [Error] with a message. *)
Inductive Result (A : Type) :=
  | Ok (value : A)
  | Throw (message : string).
Arguments Ok {A} value.
Arguments Throw {A} message.

Definition bind {A B} (r : Result A) (k : A → Result B) : Result B :=
  match r with
  | Ok a => k a
  | Throw m => Throw m
  end.

Notation "x ←! r ; k" := (bind r (λ x, k))
  (at level 20, r at level 100, k at level 200, right associativity).

(** ** Cameras *)

Module Camera.

Record Vector3 := mkVector3 { x : Q; y : Q; z : Q }.

(** [THREE.Vector3] objects live in a heap; a reference is an address. *)
Definition ref := positive.
Abbreviation Heap := (gmap ref Vector3).

(** Reading through a reference that holds no vector is the
    [TypeError] of reading a property of [undefined]. *)
Definition deref (r : ref) (h : Heap) : Result Vector3 :=
  match h !! r with
  | Some v => Ok v
  | None => Throw "TypeError: Cannot read properties of undefined"
  end.

Inductive Projection :=
  | PerspectiveCamera (fov aspect near far : Q)
  | OrthographicCamera (left right top bottom near far : Q).

(** A camera: its projection, its own position vector, and the point
    the last [lookAt] turned it to ([None]: the initial orientation). *)
Record Camera := mkCamera {
  projection : Projection;
  position : ref;
  facing : option Vector3
}.

Record CameraConfig := mkCameraConfig {
  type : string;
  fov : option Q;
  aspect : option Q;
  near : Q;
  far : Q;
  cfg_position : ref;
  target : option ref
}.

(** [new THREE.PerspectiveCamera(fov = 50, aspect = 1, near, far)] and
    [new THREE.OrthographicCamera(...)]: the constructor of [Object3D]
    gives the camera a new position vector (0, 0, 0). *)
Definition newCamera (p : Projection) (h : Heap) : Camera * Heap :=
  let r := fresh (dom h) in
  (mkCamera p r None, <[r := mkVector3 0 0 0]> h).

(** [createCamera(config)] *)
Definition createCamera (config : CameraConfig) (h : Heap) : Result (Camera * Heap) :=
  let '(camera, h) :=
    if decide (type config = "perspective")
    then newCamera (PerspectiveCamera (default 50 (fov config)) (default 1 (aspect config))
                                      (near config) (far config)) h
    else newCamera (OrthographicCamera (-1) 1 1 (-1) (near config) (far config)) h in
  v ←! deref (cfg_position config) h;
  let h := <[position camera := v]> h in
  match target config with
  | Some t =>
      p ←! deref t h;
      Ok (mkCamera (projection camera) (position camera) (Some p), h)
  | None => Ok (camera, h)
  end.

End Camera.

(** ** TypedGeometryFactory *)

Module TypedGeometryFactory.

(** The properties a geometry [config] object may carry (the union of
    the six config interfaces, spelled as in the source). *)
Record GeometryProps := mkGeometryProps {
  width : option Q;
  height : option Q;
  depth : option Q;
  radius : option Q;
  widthSegments : option Q;
  heightSegments : option Q;
  radialSegments : option Q;
  radiusTop : option Q;
  radiusBottom : option Q;
  tube : option Q;
  tublarSegments : option Q
}.

Inductive Geometry :=
  | BoxGeometry (width height depth : Q)
  | SphereGeometry (radius widthSegments heightSegments : Q)
  | ConeGeometry (radius height radialSegments : Q)
  | CylinderGeometry (radiusTop radiusBottom height radialSegments : Q)
  | TorusGeometry (radius tube radialSegments tubularSegments : Q)
  | PlaneGeometry (width height : Q).

(** [a ?? b] *)
Definition nullish {A} (a : option A) (b : A) : A := default b a.
Infix "??" := nullish (at level 45, left associativity).

(** [createGeometry(type, config = {})] *)
Definition createGeometry (type : string) (config : GeometryProps) : Result Geometry :=
  if decide (type = "box") then
    Ok (BoxGeometry (width config ?? 1) (height config ?? 1) (depth config ?? 1))
  else if decide (type = "sphere") then
    Ok (SphereGeometry (radius config ?? 1) (widthSegments config ?? 32)
                       (heightSegments config ?? 16))
  else if decide (type = "cone") then
    Ok (ConeGeometry (radius config ?? 1) (height config ?? 1) (radialSegments config ?? 8))
  else if decide (type = "cylinder") then
    Ok (CylinderGeometry (radiusTop config ?? 1) (radiusBottom config ?? 1)
                         (height config ?? 1) (radialSegments config ?? 8))
  else if decide (type = "torus") then
    Ok (TorusGeometry (radius config ?? 1) (tube config ?? (4 # 10))
                      (radialSegments config ?? 8) (tublarSegments config ?? 8))
  else if decide (type = "plane") then
    Ok (PlaneGeometry (width config ?? 1) (height config ?? 1))
  else
    Throw ("Unsupported geometry type: " ++ type).

(** The properties a material [config] object may carry. *)
Record MaterialProps := mkMaterialProps {
  color : option Q;
  wireframe : option bool;
  emssive : option Q;
  specular : option Q;
  shininess : option Q;
  roughness : option Q;
  metalness : option Q
}.

Inductive Material :=
  | MeshBasicMaterial (color : Q) (wireframe : bool)
  | MeshLambertMaterial (color emissive : Q)
  | MeshPhongMaterial (color specular shininess : Q)
  | MeshStandardMaterial (color roughness metalness : Q).

(** [createMaterial(type, config = {})]; 0xffffff = 16777215 and
    0x111111 = 1118481. *)
Definition createMaterial (type : string) (config : MaterialProps) : Result Material :=
  if decide (type = "basic") then
    Ok (MeshBasicMaterial (color config ?? 16777215) (wireframe config ?? false))
  else if decide (type = "lambert") then
    Ok (MeshLambertMaterial (color config ?? 16777215) (emssive config ?? 0))
  else if decide (type = "phong") then
    Ok (MeshPhongMaterial (color config ?? 16777215) (specular config ?? 1118481)
                          (shininess config ?? 30))
  else if decide (type = "standard") then
    Ok (MeshStandardMaterial (color config ?? 16777215) (roughness config ?? (5 # 10))
                             (metalness config ?? (5 # 10)))
  else
    Throw ("Unsupported material type : " ++ type).

Definition GeometryTypes : list string :=
  ["box"; "sphere"; "cone"; "cylinder"; "torus"; "plane"].

Definition MaterialTypes : list string :=
  ["basic"; "lambert"; "phong"; "standard"].

End TypedGeometryFactory.

(** ** Calls on a manager *)

(** The public methods of the class, and the browser running a frame
    request. *)
Inductive Call :=
  | AddObject (object : Object3D) (id : option string)
  | RemoveObject (id : string)
  | AddAnimation (id : string) (animationFn : AnimationFn)
  | RemoveAnimation (id : string)
  | StartAnimation
  | StopAnimation
  | Dispose
  | Frame (id : nat).

Definition call (c : Call) (s : FoundationScene) : FoundationScene :=
  match c with
  | AddObject object id => (addObject object id s).2
  | RemoveObject id => (removeObject id s).2
  | AddAnimation id animationFn => addAnimation id animationFn s
  | RemoveAnimation id => removeAnimation id s
  | StartAnimation => startAnimation s
  | StopAnimation => stopAnimation s
  | Dispose => dispose s
  | Frame id => runFrame id s
  end.

(** A sequence of calls, the first of the list first. *)
Definition run (calls : list Call) (s : FoundationScene) : FoundationScene :=
  foldl (λ s c, call c s) s calls.

(** ** Configuration *)

Module Config.

(** An object literal as a finite map from property names to values;
    [{...a, ...b}] copies the properties of [a], then those of [b], so
    that [b] wins where both have the property. *)
Definition spread {V} (a b : gmap string V) : gmap string V := b ∪ a.

(** [FoundationSceneConfig]: the three sections, and the remaining
    properties ([container], [autoResize], [stats]). *)
Record FoundationSceneConfig (V : Type) := mkFoundationSceneConfig {
  camera : gmap string V;
  renderer : gmap string V;
  scene : gmap string V;
  others : gmap string V
}.
Arguments mkFoundationSceneConfig {V} camera renderer scene others.
Arguments camera {V} f.
Arguments renderer {V} f.
Arguments scene {V} f.
Arguments others {V} f.

(** [Partial<FoundationSceneConfig>]: every section may be missing;
    spreading [undefined] copies nothing. *)
Record PartialConfig (V : Type) := mkPartialConfig {
  user_camera : option (gmap string V);
  user_renderer : option (gmap string V);
  user_scene : option (gmap string V);
  user_others : gmap string V
}.
Arguments mkPartialConfig {V} user_camera user_renderer user_scene user_others.
Arguments user_camera {V} p.
Arguments user_renderer {V} p.
Arguments user_scene {V} p.
Arguments user_others {V} p.

(** [mergeConfig(defaultConfig, userConfig)] *)
Definition mergeConfig {V} (defaultConfig : FoundationSceneConfig V)
    (userConfig : PartialConfig V) : FoundationSceneConfig V :=
  mkFoundationSceneConfig
    (spread (camera defaultConfig) (default ∅ (user_camera userConfig)))
    (spread (renderer defaultConfig) (default ∅ (user_renderer userConfig)))
    (spread (scene defaultConfig) (default ∅ (user_scene userConfig)))
    (spread (others defaultConfig) (user_others userConfig)).

(** The configuration seen as a partial one, every section given. *)
Definition asPartial {V} (c : FoundationSceneConfig V) : PartialConfig V :=
  mkPartialConfig (Some (camera c)) (Some (renderer c)) (Some (scene c)) (others c).

End Config.

(** ** Scene construction *)

Module SceneFactory.

Inductive Background :=
  | Color (hex : Q)
  | Texture (image : positive).

Record FogConfig := mkFogConfig {
  fog_type : string;
  fog_color : Q;
  fog_near : option Q;
  fog_far : option Q;
  fog_density : option Q
}.

(** [SceneConfig]; a background that is [null] or missing is [None]. *)
Record SceneConfig := mkSceneConfig {
  background : option Background;
  fog : option FogConfig
}.

(** [new THREE.Fog(color, near = 1, far = 1000)] *)
Record Fog := mkFog { color : Q; near : Q; far : Q }.

(** A [THREE.Scene] just made: its background and its fog, both [null]
    until set. *)
Record Scene := mkScene {
  scene_background : option Background;
  scene_fog : option Fog
}.

(** [createScene(config)] *)
Definition createScene (config : SceneConfig) : Scene :=
  let scene := mkScene None None in
  let scene := match background config with
               | Some b => mkScene (Some b) (scene_fog scene)
               | None => scene
               end in
  match fog config with
  | Some f => mkScene (scene_background scene)
                (Some (mkFog (fog_color f) (default 1 (fog_near f)) (default 1000 (fog_far f))))
  | None => scene
  end.

End SceneFactory.

(** ** TypedObjectFactory *)

Module TypedObjectFactory.

(** [Partial<Vector3Like>] *)
Record PartialVector3 := mkPartialVector3 {
  px : option Q;
  py : option Q;
  pz : option Q
}.

Record Transform := mkTransform {
  t_position : option PartialVector3;
  t_rotation : option PartialVector3;
  t_scale : option PartialVector3
}.

(** [RequiredObjectConfig]. [userData] is a reference to the caller's
    object; the [animation] property is never read by the factory and is
    left out. *)
Record ObjectConfig := mkObjectConfig {
  geometry_type : string;
  geometry_config : option TypedGeometryFactory.GeometryProps;
  material_type : string;
  material_config : option TypedGeometryFactory.MaterialProps;
  transform : option Transform;
  name : option string;
  userData : option positive
}.

(** A [THREE.Mesh]. [mesh_userData] is [None] for the empty object a new
    mesh owns, [Some r] once the caller's object [r] has been assigned. *)
Record Mesh := mkMesh {
  geometry : TypedGeometryFactory.Geometry;
  material : TypedGeometryFactory.Material;
  mesh_name : string;
  mesh_userData : option positive;
  position : Camera.Vector3;
  rotation : Camera.Vector3;
  scale : Camera.Vector3
}.

(** [new THREE.Mesh(geometry, material)]: no name, at the origin, not
    rotated, scale 1. *)
Definition newMesh (g : TypedGeometryFactory.Geometry) (m : TypedGeometryFactory.Material)
    : Mesh :=
  mkMesh g m "" None (Camera.mkVector3 0 0 0) (Camera.mkVector3 0 0 0)
         (Camera.mkVector3 1 1 1).

(** The default [{}] of the [config] parameter of both factories. *)
Definition noGeometryProps : TypedGeometryFactory.GeometryProps :=
  TypedGeometryFactory.mkGeometryProps None None None None None None None None None None None.

Definition noMaterialProps : TypedGeometryFactory.MaterialProps :=
  TypedGeometryFactory.mkMaterialProps None None None None None None None.

(** [v.set(p.x ?? d, p.y ?? d, p.z ?? d)] *)
Definition setFrom (p : PartialVector3) (d : Q) : Camera.Vector3 :=
  Camera.mkVector3 (default d (px p)) (default d (py p)) (default d (pz p)).

(** [applyTransform(object, transform)] *)
Definition applyTransform (object : Mesh) (transform : option Transform) : Mesh :=
  match transform with
  | None => object
  | Some t =>
      let object :=
        match t_position t with
        | Some p => mkMesh (geometry object) (material object) (mesh_name object)
                      (mesh_userData object) (setFrom p 0) (rotation object) (scale object)
        | None => object
        end in
      let object :=
        match t_rotation t with
        | Some p => mkMesh (geometry object) (material object) (mesh_name object)
                      (mesh_userData object) (position object) (setFrom p 0) (scale object)
        | None => object
        end in
      match t_scale t with
      | Some p => mkMesh (geometry object) (material object) (mesh_name object)
                    (mesh_userData object) (position object) (rotation object) (setFrom p 1)
      | None => object
      end
  end.

(** [createMesh(config)] *)
Definition createMesh (config : ObjectConfig) : Result Mesh :=
  g ←! TypedGeometryFactory.createGeometry (geometry_type config)
         (default noGeometryProps (geometry_config config));
  m ←! TypedGeometryFactory.createMaterial (material_type config)
         (default noMaterialProps (material_config config));
  let mesh := newMesh g m in
  let mesh :=
    match name config with
    | Some n =>
        if decide (n = "") then mesh
        else mkMesh (geometry mesh) (material mesh) n (mesh_userData mesh)
               (position mesh) (rotation mesh) (scale mesh)
    | None => mesh
    end in
  let mesh :=
    match userData config with
    | Some u => mkMesh (geometry mesh) (material mesh) (mesh_name mesh) (Some u)
                  (position mesh) (rotation mesh) (scale mesh)
    | None => mesh
    end in
  Ok (match transform config with
      | Some t => applyTransform mesh (Some t)
      | None => mesh
      end).

(** [createMeshes(configs)]: [configs.map], which stops at the first
    call that throws. *)
Fixpoint createMeshes (configs : list ObjectConfig) : Result (list Mesh) :=
  match configs with
  | [] => Ok []
  | c :: rest =>
      mesh ←! createMesh c;
      meshes ←! createMeshes rest;
      Ok (mesh :: meshes)
  end.

End TypedObjectFactory.

(** The return types [GeometryInstance<T>] and [MaterialInstance<T>]:
    the class of the instance promised for the type [T], any geometry
    (any material) for a type that is none of the listed ones. *)
Definition GeometryInstance (type : string) (g : TypedGeometryFactory.Geometry) : Prop :=
  if decide (type = "box") then ∃ w h d, g = TypedGeometryFactory.BoxGeometry w h d
  else if decide (type = "sphere") then ∃ r w h, g = TypedGeometryFactory.SphereGeometry r w h
  else if decide (type = "cone") then ∃ r h s, g = TypedGeometryFactory.ConeGeometry r h s
  else if decide (type = "cylinder")
    then ∃ t b h s, g = TypedGeometryFactory.CylinderGeometry t b h s
  else if decide (type = "torus") then ∃ r t s u, g = TypedGeometryFactory.TorusGeometry r t s u
  else if decide (type = "plane") then ∃ w h, g = TypedGeometryFactory.PlaneGeometry w h
  else True.

Definition MaterialInstance (type : string) (m : TypedGeometryFactory.Material) : Prop :=
  if decide (type = "basic") then ∃ c w, m = TypedGeometryFactory.MeshBasicMaterial c w
  else if decide (type = "lambert") then ∃ c e, m = TypedGeometryFactory.MeshLambertMaterial c e
  else if decide (type = "phong") then ∃ c s h, m = TypedGeometryFactory.MeshPhongMaterial c s h
  else if decide (type = "standard")
    then ∃ c r t, m = TypedGeometryFactory.MeshStandardMaterial c r t
  else True.

(** ** TypedHelpers *)

Module TypedHelpers.

(** A JavaScript number: a finite value, an infinity, or NaN. *)
Inductive number :=
  | Finite (q : Q)
  | Infinity
  | NegInfinity
  | NaN.

(** [Number.isFinite(n)] *)
Definition isFinite (n : number) : bool :=
  match n with
  | Finite _ => true
  | _ => false
  end.

Record Vector3 := mkVector3 { x : number; y : number; z : number }.

(** [createVector3(x = 0, y = 0, z = 0)]: a missing argument is 0. *)
Definition createVector3 (x y z : option number) : Vector3 :=
  let x := default (Finite 0) x in
  let y := default (Finite 0) y in
  let z := default (Finite 0) z in
  mkVector3 (if isFinite x then x else Finite 0)
            (if isFinite y then y else Finite 0)
            (if isFinite z then z else Finite 0).

End TypedHelpers.

(** ** Sample data *)

Definition cube : Object3D := mkObject3D 1 "5f0c2a9e-0001".
Definition cube2 : Object3D := mkObject3D 2 "5f0c2a9e-0002".
Definition spin : AnimationFn := 0%nat.

(** A manager just constructed with the default configuration, and the
    same manager disposed at once. *)
Definition liveScene : FoundationScene := newFoundationScene true freshHost.
Definition disposedScene : FoundationScene := dispose liveScene.

(** The configuration of the specification's scenario: a perspective
    camera with fov 75, aspect 16/9, near 0.1, far 1000 at (0, 0, 5),
    looking at the origin. The heap holds the two vectors of the
    configuration. *)
Definition sampleHeap : Camera.Heap :=
  <[1%positive := Camera.mkVector3 0 0 5]> (<[2%positive := Camera.mkVector3 0 0 0]> ∅).

Definition perspectiveConfig : Camera.CameraConfig :=
  Camera.mkCameraConfig "perspective" (Some 75) (Some (16 # 9)) (1 # 10) 1000
                        1%positive (Some 2%positive).

(** The same configuration with a camera type the manager does not know. *)
Definition fisheyeConfig : Camera.CameraConfig :=
  Camera.mkCameraConfig "fisheye" (Some 75) (Some (16 # 9)) (1 # 10) 1000
                        1%positive None.

(** * Properties *)

(** ** The scene graph *)

Section SceneGraph.
Implicit Types (o n : Object3D) (l : list Object3D).

Lemma remove_other o n l : n ≠ o → n ∈ remove o l ↔ n ∈ l.
Proof.
  intros Hne. induction l as [|c l IH]; simpl; [done|].
  destruct (decide (c = o)) as [->|Hc].
  - rewrite elem_of_cons. split; [by right|]. by intros [?|?].
  - rewrite !elem_of_cons, IH. done.
Qed.

Lemma remove_absent o l : o ∉ l → remove o l = l.
Proof.
  induction l as [|c l IH]; simpl; [done|].
  rewrite not_elem_of_cons. intros [Hne Hl].
  destruct (decide (c = o)); [congruence|]. by rewrite IH.
Qed.

Lemma remove_app_absent o l : o ∉ l → remove o (l ++ [o]) = l.
Proof.
  induction l as [|c l IH]; simpl.
  - intros _. by destruct (decide (o = o)).
  - rewrite not_elem_of_cons. intros [Hne Hl].
    destruct (decide (c = o)); [congruence|]. by rewrite IH.
Qed.

Lemma add_self o l : o ∈ add o l.
Proof. unfold add. rewrite elem_of_app, list_elem_of_singleton. by right. Qed.

Lemma add_other o n l : n ∈ l → n ∈ add o l.
Proof.
  intros Hn. destruct (decide (n = o)) as [->|Hne]; [apply add_self|].
  unfold add. rewrite elem_of_app, remove_other by done. by left.
Qed.

Lemma remove_add_absent o l : o ∉ l → remove o (add o l) = l.
Proof.
  intros Ho. unfold add. rewrite (remove_absent o l Ho).
  by apply remove_app_absent.
Qed.

End SceneGraph.

(** ** The object registry *)

Section Registry.
Implicit Types (s : FoundationScene) (object : Object3D) (id : string).

Lemma addObject_id object oid s : (addObject object oid s).1 = resolveId object oid.
Proof. done. Qed.

Lemma addObject_registry object oid s :
  managedObjects (addObject object oid s).2
  = <[resolveId object oid := object]> (managedObjects s).
Proof. done. Qed.

Lemma addObject_scene object oid s :
  scene (addObject object oid s).2 = add object (scene s).
Proof. done. Qed.

Lemma resolveId_given object id : id ≠ "" → resolveId object (Some id) = id.
Proof. intros Hid. unfold resolveId. by destruct (decide (id = "")). Qed.

Lemma removeObject_present id object s :
  managedObjects s !! id = Some object →
  removeObject id s
  = (true, set_managedObjects (delete id) (set_scene (remove object) s)).
Proof. intros H. unfold removeObject. by rewrite H. Qed.

Lemma removeObject_absent id s :
  managedObjects s !! id = None → removeObject id s = (false, s).
Proof. intros H. unfold removeObject. by rewrite H. Qed.

Lemma removeObject_forgets id s :
  managedObjects (removeObject id s).2 !! id = None.
Proof.
  unfold removeObject. destruct (managedObjects s !! id) eqn:H; simpl; [|done].
  apply lookup_delete_eq.
Qed.

End Registry.

(** ** The frame loop *)

Section FrameLoop.
Implicit Types (s : FoundationScene).

Lemma animate_animationId s :
  animationId (animate s) = Some (nextRequestId (host s)).
Proof. done. Qed.

Lemma animate_scheduled s :
  scheduled (host (animate s)) = (scheduled (host s) ++ [nextRequestId (host s)])%list.
Proof. done. Qed.

Lemma startAnimation_running s :
  is_Some (animationId s) → startAnimation s = s.
Proof. intros [a Ha]. unfold startAnimation. by rewrite Ha. Qed.

Lemma startAnimation_is_running s : is_Some (animationId (startAnimation s)).
Proof.
  unfold startAnimation. destruct (animationId s) eqn:Ha.
  - rewrite Ha. eauto.
  - rewrite animate_animationId. eauto.
Qed.

Lemma stopAnimation_animationId s : animationId (stopAnimation s) = None.
Proof. unfold stopAnimation. by destruct (animationId s) eqn:Ha. Qed.

Lemma cancel_single id h :
  scheduled h = [id] → scheduled (cancelAnimationFrame id h) = [].
Proof.
  intros Hs. simpl. rewrite Hs, filter_cons.
  by destruct (decide (id ≠ id)).
Qed.

Lemma singleLoop_new autoResize : singleLoop (newFoundationScene autoResize freshHost).
Proof. by destruct autoResize. Qed.

Lemma singleLoop_animate s :
  scheduled (host s) = [] → singleLoop (animate s).
Proof.
  intros Hs. unfold singleLoop. rewrite animate_scheduled, animate_animationId, Hs. done.
Qed.

Lemma singleLoop_startAnimation s : singleLoop s → singleLoop (startAnimation s).
Proof.
  unfold startAnimation. destruct (animationId s) eqn:Ha; [done|].
  intros Hs. apply singleLoop_animate. unfold singleLoop in Hs. by rewrite Ha in Hs.
Qed.

Lemma singleLoop_stopAnimation s : singleLoop s → singleLoop (stopAnimation s).
Proof.
  unfold stopAnimation, singleLoop. destruct (animationId s) eqn:Ha; [|by rewrite Ha].
  intros Hs. by apply cancel_single.
Qed.

(** The browser runs the one scheduled frame: the loop goes on with one
    new request. *)
Lemma singleLoop_runFrame id s : singleLoop s → singleLoop (runFrame id s).
Proof.
  intros Hs. unfold runFrame. destruct (decide (id ∈ scheduled (host s))) as [Hin|]; [|done].
  apply singleLoop_animate. unfold singleLoop in Hs.
  destruct (animationId s) as [a|]; rewrite Hs in Hin.
  - apply list_elem_of_singleton in Hin as ->. by apply cancel_single.
  - by apply elem_of_nil in Hin.
Qed.

Lemma singleLoop_dispose s : singleLoop s → singleLoop (dispose s).
Proof.
  intros Hs. unfold dispose. destruct (isDisposed s); [done|].
  by apply singleLoop_stopAnimation in Hs.
Qed.

End FrameLoop.

(** ** Disposal *)

Section Disposal.
Implicit Types (s : FoundationScene).

Lemma dispose_disposed s : isDisposed s = true → dispose s = s.
Proof. intros H. unfold dispose. by rewrite H. Qed.

Lemma dispose_isDisposed s : isDisposed (dispose s) = true.
Proof. unfold dispose. by destruct (isDisposed s) eqn:H. Qed.

Lemma stopAnimation_animatedObjects s :
  animatedObjects (stopAnimation s) = animatedObjects s.
Proof. unfold stopAnimation. by destruct (animationId s). Qed.

Lemma stopAnimation_managedObjects s :
  managedObjects (stopAnimation s) = managedObjects s.
Proof. unfold stopAnimation. by destruct (animationId s). Qed.

Lemma stopAnimation_scene s : scene (stopAnimation s) = scene s.
Proof. unfold stopAnimation. by destruct (animationId s). Qed.

(** [dispose] never writes [animatedObjects]. *)
Lemma dispose_animatedObjects s : animatedObjects (dispose s) = animatedObjects s.
Proof.
  unfold dispose. destruct (isDisposed s); [done|].
  simpl. apply stopAnimation_animatedObjects.
Qed.

Lemma dispose_live s :
  isDisposed s = false →
  animationId (dispose s) = None ∧ managedObjects (dispose s) = ∅.
Proof.
  intros H. unfold dispose. rewrite H. simpl.
  split; [apply stopAnimation_animationId | done].
Qed.

End Disposal.

(** ** Claims on the lifecycle manager *)

(** C1, counterexample: on the manager disposed right after its
    construction, [startAnimation] leaves a frame-loop handle and
    [addObject] changes both the scene graph and the registry. *)
Lemma disposed_calls_counterexample :
  isDisposed disposedScene = true
  ∧ animationId (startAnimation disposedScene) ≠ None
  ∧ scene (addObject cube (Some "cube") disposedScene).2 ≠ scene disposedScene
  ∧ managedObjects (addObject cube (Some "cube") disposedScene).2
    ≠ managedObjects disposedScene.
Proof.
  repeat split; [discriminate | discriminate |].
  intros H. apply (f_equal (λ m, m !! "cube")) in H. discriminate H.
Qed.

(** C1, as amended: on a disposed manager a further [dispose] is a
    no-op, but [startAnimation] and [addObject] do not look at the
    disposed flag. With no frame-loop handle, [startAnimation] requests
    a frame and keeps its handle; [addObject] attaches the node and
    registers it under the resolved identifier; the flag stays set. *)
Theorem disposed_calls s :
  isDisposed s = true →
  dispose s = s
  ∧ (animationId s = None →
       animationId (startAnimation s) = Some (nextRequestId (host s))
       ∧ nextRequestId (host s) ∈ scheduled (host (startAnimation s)))
  ∧ (∀ object oid,
       managedObjects (addObject object oid s).2 !! (addObject object oid s).1 = Some object
       ∧ object ∈ scene (addObject object oid s).2
       ∧ isDisposed (addObject object oid s).2 = true).
Proof.
  intros Hd. split; [by apply dispose_disposed|]. split.
  - intros Ha. unfold startAnimation. rewrite Ha.
    rewrite animate_animationId, animate_scheduled. split; [done|].
    rewrite elem_of_app, list_elem_of_singleton. by right.
  - intros object oid.
    rewrite addObject_registry, addObject_id, addObject_scene.
    rewrite lookup_insert_eq. split; [done|]. split; [apply add_self | exact Hd].
Qed.

Lemma disposed_calls_witness :
  isDisposed disposedScene = true
  ∧ animationId (startAnimation disposedScene) = Some 0%nat.
Proof.
  split; [reflexivity|].
  destruct (disposed_calls disposedScene) as (_ & Hstart & _); [reflexivity|].
  destruct Hstart as [Hid _]; [reflexivity|]. exact Hid.
Defined.

(** C2, the failing input: a manager with the one animation ["spin"]
    registered; after [dispose] the animation registry still holds it. *)
Theorem dispose_leaves_animation :
  animatedObjects (dispose (addAnimation "spin" spin liveScene))
  = [("spin", spin)].
Proof. rewrite dispose_animatedObjects. reflexivity. Qed.

(** C3: adding a second node under an identifier in use overwrites the
    registry entry and leaves the first node in the scene graph. *)
Theorem addObject_reused_id s node1 node2 id :
  id ≠ "" → node1 ≠ node2 →
  let s' := (addObject node2 (Some id) (addObject node1 (Some id) s).2).2 in
  managedObjects s' !! id = Some node2 ∧ node1 ∈ scene s' ∧ node2 ∈ scene s'.
Proof.
  intros Hid Hne s'. subst s'.
  rewrite !addObject_registry, !addObject_scene, !resolveId_given by done.
  rewrite lookup_insert_eq. split; [done|]. split.
  - apply add_other, add_self.
  - apply add_self.
Qed.

Lemma addObject_reused_id_witness :
  let s' := (addObject cube2 (Some "cube") (addObject cube (Some "cube") liveScene).2).2 in
  managedObjects s' !! "cube" = Some cube2 ∧ cube ∈ scene s' ∧ cube2 ∈ scene s'.
Proof. apply addObject_reused_id; discriminate. Defined.

(** C6, counterexample: the node is already registered under its uuid.
    The pair of calls then takes the registry from one entry to none and
    the scene graph from one child to none. *)
Lemma add_remove_count_counterexample :
  let s := (addObject cube None liveScene).2 in
  let added := addObject cube None s in
  let removed := removeObject added.1 added.2 in
  size (managedObjects s) = 1%nat ∧ size (managedObjects removed.2) = 0%nat
  ∧ length (scene s) = 1%nat ∧ length (scene removed.2) = 0%nat.
Proof. repeat split. Qed.

(** C6, as amended: [addObject] followed at once by [removeObject] with
    the identifier returned always answers [true]; when that identifier
    was not registered before the pair of calls the registry, and so the
    managed-object count, is as it was, and when the node was not in the
    scene graph before, the scene graph is as it was. *)
Theorem add_then_remove s object oid :
  let added := addObject object oid s in
  let removed := removeObject added.1 added.2 in
  removed.1 = true
  ∧ (managedObjects s !! added.1 = None →
       managedObjects removed.2 = managedObjects s
       ∧ size (managedObjects removed.2) = size (managedObjects s))
  ∧ (object ∉ scene s → scene removed.2 = scene s).
Proof.
  intros added removed.
  assert (Hrem : removed
                 = (true, set_managedObjects (delete added.1)
                            (set_scene (remove object) added.2))).
  { apply removeObject_present. subst added.
    rewrite addObject_registry, addObject_id. apply lookup_insert_eq. }
  rewrite Hrem. simpl. split; [done|]. split.
  - intros Hfresh.
    assert (Hm : delete (resolveId object oid)
                   (<[resolveId object oid := object]> (managedObjects s))
                 = managedObjects s).
    { rewrite delete_insert_eq. by apply delete_id. }
    by rewrite Hm.
  - intros Hout. by apply remove_add_absent.
Qed.

Lemma add_then_remove_witness :
  let added := addObject cube None liveScene in
  (removeObject added.1 added.2).1 = true
  ∧ managedObjects (removeObject added.1 added.2).2 = managedObjects liveScene
  ∧ scene (removeObject added.1 added.2).2 = scene liveScene.
Proof.
  intros added.
  destruct (add_then_remove liveScene cube None) as (Htrue & Hreg & Hscene).
  split; [exact Htrue|]. split.
  - apply Hreg. reflexivity.
  - apply Hscene. vm_compute. inversion 1.
Defined.

(** C7: with a frame-loop handle present [startAnimation] changes
    nothing, so no second frame request is made; hence two calls in a
    row are one call. Starting from a stopped manager they leave one
    more request than there was, and on a page where the manager's loop
    is the only source of requests exactly one request is scheduled
    after the two calls. *)
Theorem startAnimation_twice s :
  (is_Some (animationId s) →
     startAnimation s = s
     ∧ scheduled (host (startAnimation s)) = scheduled (host s))
  ∧ startAnimation (startAnimation s) = startAnimation s
  ∧ (animationId s = None →
       scheduled (host (startAnimation (startAnimation s)))
       = (scheduled (host s) ++ [nextRequestId (host s)])%list)
  ∧ (singleLoop s →
       length (scheduled (host (startAnimation (startAnimation s)))) = 1%nat).
Proof.
  assert (Hidem : startAnimation (startAnimation s) = startAnimation s)
    by apply startAnimation_running, startAnimation_is_running.
  split; [|split; [|split]].
  - intros Hrun. by rewrite startAnimation_running.
  - exact Hidem.
  - intros Hstop. rewrite Hidem. unfold startAnimation. rewrite Hstop.
    apply animate_scheduled.
  - intros Hone. rewrite Hidem. apply singleLoop_startAnimation in Hone.
    unfold singleLoop in Hone. rewrite Hone.
    by destruct (startAnimation_is_running s) as [a ->].
Qed.

Lemma startAnimation_twice_witness :
  is_Some (animationId (startAnimation liveScene))
  ∧ startAnimation (startAnimation liveScene) = startAnimation liveScene
  ∧ scheduled (host (startAnimation (startAnimation liveScene))) = [0%nat].
Proof.
  split; [by eexists|].
  destruct (startAnimation_twice (startAnimation liveScene)) as (Hrun & _ & _ & _).
  destruct Hrun as [Hsame Hsched]; [by eexists|].
  split; [exact Hsame|]. rewrite Hsched. reflexivity.
Defined.

(** C8: [removeObject] on an identifier that is not in the registry,
    never added or already removed, answers [false], throws nothing and
    returns the manager as it was. *)
Theorem removeObject_unknown s id :
  managedObjects s !! id = None → removeObject id s = (false, s).
Proof. apply removeObject_absent. Qed.

Lemma removeObject_unknown_witness :
  let s := (removeObject "cube" (addObject cube (Some "cube") liveScene).2).2 in
  removeObject "ghost" liveScene = (false, liveScene)
  ∧ removeObject "cube" s = (false, s).
Proof.
  split.
  - apply removeObject_unknown. reflexivity.
  - apply removeObject_unknown, removeObject_forgets.
Defined.

(** C9: the empty string as identifier is the same as no identifier:
    the node is registered under its uuid and the uuid is returned. *)
Theorem addObject_empty_id s object :
  addObject object (Some "") s = addObject object None s
  ∧ (addObject object (Some "") s).1 = uuid object
  ∧ managedObjects (addObject object (Some "") s).2 !! uuid object = Some object.
Proof.
  split; [done|]. split; [done|].
  rewrite addObject_registry. simpl. apply lookup_insert_eq.
Qed.

(** ** The registry and the scene graph *)

Section RegistryAttached.
Implicit Types (s : FoundationScene) (object : Object3D) (id : string).

Lemma registryAttached_new autoResize h :
  registryAttached (newFoundationScene autoResize h).
Proof.
  unfold registryAttached, newFoundationScene, initialize. simpl.
  destruct autoResize; apply map_Forall_empty.
Qed.

Lemma registryAttached_addObject object oid s :
  registryAttached s → registryAttached (addObject object oid s).2.
Proof.
  unfold registryAttached. rewrite addObject_registry, addObject_scene.
  intros Hs. apply map_Forall_insert_2; [apply add_self|].
  intros k n Hk. apply add_other. by apply (Hs k).
Qed.

(** [removeObject] keeps the nodes that differ from the one it
    detaches; the node itself must not be registered a second time. *)
Lemma registryAttached_removeObject id s :
  (∀ object id', managedObjects s !! id = Some object →
                 managedObjects s !! id' = Some object → id' = id) →
  registryAttached s → registryAttached (removeObject id s).2.
Proof.
  unfold registryAttached, removeObject. intros Hone Hs.
  destruct (managedObjects s !! id) as [object|] eqn:Hid; simpl; [|done].
  intros k n Hk. apply lookup_delete_Some in Hk as [Hne Hk].
  apply remove_other; [|by apply (Hs k)].
  intros ->. apply Hne. symmetry. by apply (Hone object k).
Qed.

Lemma registryAttached_same s s' :
  scene s' = scene s → managedObjects s' = managedObjects s →
  registryAttached s → registryAttached s'.
Proof. unfold registryAttached. by intros -> ->. Qed.

Lemma registryAttached_dispose s : registryAttached s → registryAttached (dispose s).
Proof.
  intros Hs. unfold dispose. destruct (isDisposed s); [done|].
  unfold registryAttached. simpl. apply map_Forall_empty.
Qed.

End RegistryAttached.

(** C10, counterexample: one node registered under ["a"] and under
    ["b"]. Every registered node is in the scene graph, and after
    [removeObject "a"] the node is still registered under ["b"] but is no
    longer in the scene graph. *)
Lemma registryAttached_counterexample :
  let s := (addObject cube (Some "b") (addObject cube (Some "a") liveScene).2).2 in
  registryAttached s
  ∧ managedObjects (removeObject "a" s).2 !! "b" = Some cube
  ∧ scene (removeObject "a" s).2 = []
  ∧ ¬ registryAttached (removeObject "a" s).2.
Proof.
  intros s. split; [|split; [|split]].
  - subst s. do 2 apply registryAttached_addObject. apply registryAttached_new.
  - reflexivity.
  - reflexivity.
  - apply (bool_decide_unpack _). vm_compute. exact I.
Qed.

(** C10, as amended: every node of the registry is in the scene graph
    when the manager is constructed, and this is kept by [addObject],
    [addAnimation], [removeAnimation], [startAnimation], [stopAnimation]
    and [dispose]; [removeObject id] keeps it when the node registered
    under [id] is registered under no other identifier. *)
Theorem registryAttached_preserved autoResize h s :
  registryAttached (newFoundationScene autoResize h)
  ∧ (registryAttached s →
       (∀ object oid, registryAttached (addObject object oid s).2)
       ∧ (∀ id, (∀ object id', managedObjects s !! id = Some object →
                               managedObjects s !! id' = Some object → id' = id) →
                registryAttached (removeObject id s).2)
       ∧ (∀ id fn, registryAttached (addAnimation id fn s))
       ∧ (∀ id, registryAttached (removeAnimation id s))
       ∧ registryAttached (startAnimation s)
       ∧ registryAttached (stopAnimation s)
       ∧ registryAttached (dispose s)).
Proof.
  split; [apply registryAttached_new|]. intros Hs.
  split; [intros; by apply registryAttached_addObject|].
  split; [intros; by apply registryAttached_removeObject|].
  split; [done|]. split; [done|].
  split; [|split].
  - unfold startAnimation. by destruct (animationId s).
  - apply (registryAttached_same s); [apply stopAnimation_scene
                                      | apply stopAnimation_managedObjects | done].
  - by apply registryAttached_dispose.
Qed.

Lemma registryAttached_preserved_witness :
  let s := (addObject cube (Some "a") liveScene).2 in
  registryAttached s
  ∧ registryAttached (removeObject "a" s).2
  ∧ registryAttached (dispose s).
Proof.
  intros s.
  assert (Hs : registryAttached s).
  { apply (bool_decide_unpack _). vm_compute. exact I. }
  destruct (registryAttached_preserved true freshHost s) as (_ & Hkeep).
  destruct (Hkeep Hs) as (_ & Hrem & _ & _ & _ & _ & Hdis).
  split; [exact Hs|]. split; [|exact Hdis].
  apply Hrem. intros object id' Ha Hid'.
  destruct (decide (id' = "a")) as [|Hne]; [done|].
  subst s. rewrite addObject_registry, lookup_insert_ne in Hid' by done.
  vm_compute in Hid'. discriminate Hid'.
Defined.

(** ** Camera construction *)

Section CreateCamera.
Import Camera.
Implicit Types (config : CameraConfig) (h : Heap).

Lemma newCamera_fresh p h : h !! position (newCamera p h).1 = None.
Proof. simpl. apply not_elem_of_dom, is_fresh. Qed.

(** What [createCamera] returns for a projection [p] picked by the
    type test, when the references of the configuration are live. *)
Lemma createCamera_built config h v :
  h !! cfg_position config = Some v →
  (∀ t, target config = Some t → is_Some (h !! t)) →
  let p := if decide (type config = "perspective")
           then PerspectiveCamera (default 50 (fov config)) (default 1 (aspect config))
                                  (near config) (far config)
           else OrthographicCamera (-1) 1 1 (-1) (near config) (far config) in
  let r := fresh (dom h) in
  createCamera config h
  = Ok (mkCamera p r (target config ≫= λ t, h !! t), <[r := v]> h).
Proof.
  intros Hpos Htarget p r.
  assert (Hr : h !! r = None) by apply not_elem_of_dom, is_fresh.
  assert (Hne : r ≠ cfg_position config) by (intros E; rewrite E in Hr; congruence).
  unfold createCamera.
  assert (Hnew : (if decide (type config = "perspective")
                  then newCamera (PerspectiveCamera (default 50 (fov config))
                                    (default 1 (aspect config)) (near config) (far config)) h
                  else newCamera (OrthographicCamera (-1) 1 1 (-1)
                                    (near config) (far config)) h)
                 = (mkCamera p r None, <[r := mkVector3 0 0 0]> h)).
  { subst p. by destruct (decide (type config = "perspective")). }
  rewrite Hnew. unfold deref. simpl.
  rewrite lookup_insert_ne, Hpos by done. simpl.
  rewrite insert_insert_eq.
  destruct (target config) as [t|] eqn:Ht; simpl; [|done].
  destruct (Htarget t eq_refl) as [w Hw].
  assert (r ≠ t) by (intros E; rewrite E in Hr; congruence).
  rewrite lookup_insert_ne, Hw by done. done.
Qed.

End CreateCamera.

(** C5: a complete perspective configuration gives a perspective camera
    with the four scalars of the configuration; the camera's position is
    a vector of its own, new in the heap, holding the coordinates of the
    configuration's vector, so that writing the configuration's vector
    afterwards does not move the camera; with a target, the camera has
    been turned to the target's coordinates. *)
Theorem createCamera_perspective config h f a v :
  Camera.type config = "perspective" →
  Camera.fov config = Some f →
  Camera.aspect config = Some a →
  h !! Camera.cfg_position config = Some v →
  (∀ t, Camera.target config = Some t → is_Some (h !! t)) →
  ∃ camera h',
    Camera.createCamera config h = Ok (camera, h')
    ∧ Camera.projection camera
      = Camera.PerspectiveCamera f a (Camera.near config) (Camera.far config)
    ∧ h' !! Camera.position camera = Some v
    ∧ h' !! Camera.cfg_position config = Some v
    ∧ Camera.position camera ≠ Camera.cfg_position config
    ∧ h !! Camera.position camera = None
    ∧ (∀ w, <[Camera.cfg_position config := w]> h' !! Camera.position camera = Some v)
    ∧ (∀ t, Camera.target config = Some t → Camera.facing camera = h !! t).
Proof.
  intros Hty Hfov Hasp Hpos Htarget.
  pose proof (createCamera_built config h v Hpos Htarget) as Hbuilt.
  simpl in Hbuilt. rewrite Hfov, Hasp in Hbuilt. simpl in Hbuilt.
  destruct (decide (Camera.type config = "perspective")); [|done].
  eexists _, _. split; [exact Hbuilt|]. simpl.
  assert (Hr : h !! fresh (dom h) = None) by apply not_elem_of_dom, is_fresh.
  assert (Hne : fresh (dom h) ≠ Camera.cfg_position config)
    by (intros E; rewrite E in Hr; congruence).
  split; [done|]. split; [apply lookup_insert_eq|].
  split; [by rewrite lookup_insert_ne|]. split; [done|]. split; [done|].
  split.
  - intros w. rewrite lookup_insert_ne by done. apply lookup_insert_eq.
  - intros t Ht. by rewrite Ht.
Qed.

Lemma createCamera_perspective_witness :
  ∃ camera h',
    Camera.createCamera perspectiveConfig sampleHeap = Ok (camera, h')
    ∧ Camera.projection camera = Camera.PerspectiveCamera 75 (16 # 9) 0.1 1000
    ∧ h' !! Camera.position camera = Some (Camera.mkVector3 0 0 5)
    ∧ Camera.position camera ≠ 1%positive
    ∧ Camera.facing camera = Some (Camera.mkVector3 0 0 0).
Proof.
  destruct (createCamera_perspective perspectiveConfig sampleHeap 75 (16 # 9)
              (Camera.mkVector3 0 0 5))
    as (camera & h' & Hrun & Hproj & Hown & _ & Hne & _ & _ & Hface).
  - reflexivity.
  - reflexivity.
  - reflexivity.
  - reflexivity.
  - intros t Ht. injection Ht as <-. by eexists.
  - exists camera, h'. split; [exact Hrun|]. split; [exact Hproj|].
    split; [exact Hown|]. split; [exact Hne|]. apply (Hface 2%positive). reflexivity.
Defined.

(** ** Unknown variant tags *)

(** C4, counterexample: camera construction with the type ["fisheye"]
    throws nothing and returns an orthographic camera. *)
Lemma createCamera_unknown_counterexample :
  Camera.createCamera fisheyeConfig sampleHeap
  = Ok (Camera.mkCamera (Camera.OrthographicCamera (-1) 1 1 (-1) 0.1 1000) 3%positive None,
        <[3%positive := Camera.mkVector3 0 0 5]> sampleHeap).
Proof. reflexivity. Qed.

(** C4, as amended: [createGeometry] and [createMaterial] throw, for a
    type that is none of theirs, an error whose message ends with that
    type. Camera construction has no such case: every type other than
    ["perspective"] gives an orthographic camera with the bounds
    -1, 1, 1, -1 and the near and far planes of the configuration. *)
Theorem unknown_variant type :
  (type ∉ TypedGeometryFactory.GeometryTypes →
     ∀ config, TypedGeometryFactory.createGeometry type config
               = Throw ("Unsupported geometry type: " ++ type))
  ∧ (type ∉ TypedGeometryFactory.MaterialTypes →
     ∀ config, TypedGeometryFactory.createMaterial type config
               = Throw ("Unsupported material type : " ++ type))
  ∧ (type ≠ "perspective" →
     ∀ config h v,
       Camera.type config = type →
       h !! Camera.cfg_position config = Some v →
       (∀ t, Camera.target config = Some t → is_Some (h !! t)) →
       ∃ camera h',
         Camera.createCamera config h = Ok (camera, h')
         ∧ Camera.projection camera
           = Camera.OrthographicCamera (-1) 1 1 (-1)
               (Camera.near config) (Camera.far config)).
Proof.
  split; [|split].
  - unfold TypedGeometryFactory.GeometryTypes. rewrite !not_elem_of_cons.
    intros (H1 & H2 & H3 & H4 & H5 & H6 & _) config.
    unfold TypedGeometryFactory.createGeometry.
    by repeat (destruct (decide _); [congruence|]).
  - unfold TypedGeometryFactory.MaterialTypes. rewrite !not_elem_of_cons.
    intros (H1 & H2 & H3 & H4 & _) config.
    unfold TypedGeometryFactory.createMaterial.
    by repeat (destruct (decide _); [congruence|]).
  - intros Hne config h v Hty Hpos Htarget.
    pose proof (createCamera_built config h v Hpos Htarget) as Hbuilt.
    simpl in Hbuilt.
    destruct (decide (Camera.type config = "perspective")); [congruence|].
    eexists _, _. split; [exact Hbuilt|]. done.
Qed.

Lemma unknown_variant_witness :
  TypedGeometryFactory.createGeometry "pyramid"
    (TypedGeometryFactory.mkGeometryProps None None None None None None None None None None None)
  = Throw "Unsupported geometry type: pyramid"
  ∧ TypedGeometryFactory.createMaterial "toon"
      (TypedGeometryFactory.mkMaterialProps None None None None None None None)
    = Throw "Unsupported material type : toon".
Proof.
  split.
  - destruct (unknown_variant "pyramid") as (Hgeo & _ & _). apply Hgeo.
    unfold TypedGeometryFactory.GeometryTypes. rewrite !not_elem_of_cons.
    repeat split; try discriminate. apply not_elem_of_nil.
  - destruct (unknown_variant "toon") as (_ & Hmat & _). apply Hmat.
    unfold TypedGeometryFactory.MaterialTypes. rewrite !not_elem_of_cons.
    repeat split; try discriminate. apply not_elem_of_nil.
Defined.

(** * Further properties of the code *)

(** ** Children of the scene *)

Section Children.
Implicit Types (o n : Object3D) (l : list Object3D).

Lemma remove_subseteq o n l : n ∈ remove o l → n ∈ l.
Proof.
  induction l as [|c l IH]; simpl; [done|].
  destruct (decide (c = o)); rewrite !elem_of_cons; [by right|].
  intros [?|?]; [by left | right; by apply IH].
Qed.

Lemma remove_NoDup o l : NoDup l → NoDup (remove o l).
Proof.
  induction 1 as [|c l Hc Hl IH]; simpl; [constructor|].
  destruct (decide (c = o)); [done|].
  constructor; [|done]. intros Hin. by apply Hc, (remove_subseteq o).
Qed.

Lemma remove_gone o l : NoDup l → o ∉ remove o l.
Proof.
  induction 1 as [|c l Hc Hl IH]; simpl; [apply not_elem_of_nil|].
  destruct (decide (c = o)) as [->|Hne]; [done|].
  rewrite not_elem_of_cons. by split.
Qed.

Lemma remove_elem_of o n l : NoDup l → n ∈ remove o l ↔ n ∈ l ∧ n ≠ o.
Proof.
  intros Hl. destruct (decide (n = o)) as [->|Hne].
  - split; [|by intros [_ ?]]. intros Hin. by apply remove_gone in Hin.
  - rewrite remove_other by done. by split; [|intros [? _]].
Qed.

Lemma add_NoDup o l : NoDup l → NoDup (add o l).
Proof.
  intros Hl. unfold add. apply NoDup_app. split; [by apply remove_NoDup|].
  split; [|apply NoDup_singleton].
  intros n Hn ->%list_elem_of_singleton. by apply remove_gone in Hn.
Qed.

Lemma add_elem_of o n l : n ∈ add o l ↔ n = o ∨ n ∈ l.
Proof.
  split.
  - unfold add. rewrite elem_of_app, list_elem_of_singleton.
    intros [Hin|?]; [right; by apply (remove_subseteq o) | by left].
  - intros [->|?]; [apply add_self | by apply add_other].
Qed.

End Children.

(** ** Disposal, further *)

Section DisposalMore.
Implicit Types (s : FoundationScene).

(** The children left when every node of the registry [m] has been
    removed from [l]. *)
Lemma detach_all (m : gmap string Object3D) (l : list Object3D) :
  NoDup l →
  let l' := map_fold (λ _ obj ch, remove obj ch) l m in
  NoDup l' ∧ ∀ n, n ∈ l' ↔ n ∈ l ∧ ∀ id, m !! id ≠ Some n.
Proof.
  intros Hl. simpl.
  apply (map_fold_weak_ind
           (λ r m, NoDup r ∧ ∀ n, n ∈ r ↔ n ∈ l ∧ ∀ id, m !! id ≠ Some n)).
  - split; [done|]. intros n. split; [|by intros [? _]].
    intros Hn. split; [done|]. intros id. by rewrite lookup_empty.
  - intros i x m' r Hi [Hr IH]. split; [by apply remove_NoDup|].
    intros n. rewrite remove_elem_of, IH by done. split.
    + intros [[Hn Hm] Hne]. split; [done|]. intros id.
      destruct (decide (id = i)) as [->|Hid].
      * rewrite lookup_insert_eq. congruence.
      * rewrite lookup_insert_ne by done. apply Hm.
    + intros [Hn Hm]. split; [split; [done|]|].
      * intros id Hid. apply (Hm id).
        destruct (decide (id = i)) as [->|Hne]; [congruence|].
        by rewrite lookup_insert_ne.
      * intros ->. apply (Hm i). apply lookup_insert_eq.
Qed.

End DisposalMore.

(** X1: [dispose] twice is [dispose] once. *)
Theorem dispose_idempotent s : dispose (dispose s) = dispose s.
Proof. apply dispose_disposed, dispose_isDisposed. Qed.

(** X2: what [dispose] releases on a manager not yet disposed: the
    frame-loop handle is dropped and its request cancelled, the registry
    is emptied, the renderer is disposed, the canvas is unmounted, the
    resize listener that [initialize] installed is removed, and the
    disposed flag is set. *)
Theorem dispose_releases s :
  isDisposed s = false →
  animationId (dispose s) = None
  ∧ (∀ id, animationId s = Some id → id ∉ scheduled (host (dispose s)))
  ∧ managedObjects (dispose s) = ∅
  ∧ rendererDisposed (host (dispose s)) = true
  ∧ canvasMounted (host (dispose s)) = false
  ∧ (resizeHandler s = true → resizeListening (host (dispose s)) = false)
  ∧ isDisposed (dispose s) = true.
Proof.
  intros Hlive. unfold dispose. rewrite Hlive. simpl.
  split; [apply stopAnimation_animationId|].
  split; [|split; [done|]; split; [done|]; split; [done|]; split; [|done]].
  - intros id Hid. unfold stopAnimation. rewrite Hid. simpl.
    rewrite list_elem_of_filter. by intros [? _].
  - unfold stopAnimation. destruct (animationId s); simpl; by intros ->.
Qed.

Lemma dispose_releases_witness :
  animationId (dispose (startAnimation liveScene)) = None
  ∧ scheduled (host (dispose (startAnimation liveScene))) = [].
Proof.
  destruct (dispose_releases (startAnimation liveScene)) as (Hid & _); [reflexivity|].
  split; [exact Hid | reflexivity].
Defined.

(** X3: on a manager not yet disposed whose scene holds no node twice,
    the children left by [dispose] are the children that are not in the
    registry; a node that is in the scene without being registered, such
    as one whose identifier was taken over by a later [addObject], stays
    in the scene graph. *)
Theorem dispose_detaches s :
  isDisposed s = false → NoDup (scene s) →
  ∀ n, n ∈ scene (dispose s) ↔ n ∈ scene s ∧ ∀ id, managedObjects s !! id ≠ Some n.
Proof.
  intros Hlive Hnodup n. unfold dispose. rewrite Hlive. simpl.
  rewrite stopAnimation_scene, stopAnimation_managedObjects.
  by apply detach_all.
Qed.

Lemma dispose_detaches_witness :
  let s := (addObject cube2 (Some "cube") (addObject cube (Some "cube") liveScene).2).2 in
  cube ∈ scene (dispose s) ∧ cube2 ∉ scene (dispose s).
Proof.
  intros s.
  assert (Hnodup : NoDup (scene s)).
  { subst s. rewrite !addObject_scene. do 2 apply add_NoDup. constructor. }
  pose proof (dispose_detaches s eq_refl Hnodup) as Hd. split.
  - apply Hd. split; [vm_compute; left|].
    intros id. destruct (decide (id = "cube")) as [->|Hne].
    + vm_compute. discriminate.
    + subst s. rewrite !addObject_registry, !lookup_insert_ne by done. done.
  - intros Hin. apply Hd in Hin as [_ Hreg]. by apply (Hreg "cube").
Defined.

(** ** The frame loop, further *)

(** Cancelling a request that is not scheduled changes nothing. *)
Lemma filter_absent (id : nat) (l : list nat) :
  id ∉ l → filter (λ r, r ≠ id) l = l.
Proof.
  induction l as [|r l IH]; [done|].
  rewrite not_elem_of_cons, filter_cons. intros [Hne Hl].
  destruct (decide (r ≠ id)) as [|Hn]; [by rewrite IH|].
  exfalso. apply Hn. by intros ->.
Qed.

(** X4: [stopAnimation] on a running manager drops the handle and
    cancels its request and no other. *)
Theorem stopAnimation_cancels s id :
  animationId s = Some id →
  animationId (stopAnimation s) = None
  ∧ (id ∉ scheduled (host (stopAnimation s)))
  ∧ (∀ r, r ≠ id → (r ∈ scheduled (host (stopAnimation s)) ↔ r ∈ scheduled (host s)))
  ∧ stopAnimation (stopAnimation s) = stopAnimation s.
Proof.
  intros Hid. unfold stopAnimation at 1 2 3. rewrite Hid. simpl.
  split; [done|]. split; [|split].
  - rewrite list_elem_of_filter. by intros [? _].
  - intros r Hr. rewrite list_elem_of_filter. by split; [intros [_ ?]|].
  - unfold stopAnimation at 1. by rewrite stopAnimation_animationId.
Qed.

Lemma stopAnimation_cancels_witness :
  animationId (stopAnimation (startAnimation liveScene)) = None
  ∧ 0%nat ∉ scheduled (host (stopAnimation (startAnimation liveScene))).
Proof.
  destruct (stopAnimation_cancels (startAnimation liveScene) 0%nat) as (Hid & Hout & _);
    [reflexivity|].
  split; [exact Hid | exact Hout].
Defined.

(** X5: [startAnimation] then [stopAnimation] on a stopped manager, the
    next request id not being in use: the requests scheduled are those
    of before, there is no handle, the scene graph and both registries
    are untouched, and one frame has been rendered, running the
    registered closures in their order of insertion. *)
Theorem start_then_stop s :
  animationId s = None →
  nextRequestId (host s) ∉ scheduled (host s) →
  let s' := stopAnimation (startAnimation s) in
  animationId s' = None
  ∧ scheduled (host s') = scheduled (host s)
  ∧ scene s' = scene s
  ∧ managedObjects s' = managedObjects s
  ∧ animatedObjects s' = animatedObjects s
  ∧ frames (host s') = (frames (host s) ++ [(animatedObjects s).*2])%list.
Proof.
  intros Hstop Hfree. unfold startAnimation. rewrite Hstop.
  unfold stopAnimation. rewrite animate_animationId. simpl.
  split; [done|]. split; [|done].
  rewrite filter_app, filter_cons, filter_nil.
  destruct (decide (nextRequestId (host s) ≠ nextRequestId (host s))); [done|].
  rewrite app_nil_r. by apply filter_absent.
Qed.

Lemma start_then_stop_witness :
  scheduled (host (stopAnimation (startAnimation liveScene))) = []
  ∧ frames (host (stopAnimation (startAnimation liveScene))) = [[]].
Proof.
  destruct (start_then_stop liveScene) as (_ & Hsched & _ & _ & _ & Hframes).
  - reflexivity.
  - vm_compute. inversion 1.
  - split; [exact Hsched | exact Hframes].
Defined.

(** ** Invariants of every sequence of calls *)

Section Runs.
Implicit Types (s : FoundationScene) (c : Call) (calls : list Call).

(** An invariant kept by every call is kept by every sequence. *)
Lemma run_invariant (P : FoundationScene → Prop) :
  (∀ c s, P s → P (call c s)) → ∀ calls s, P s → P (run calls s).
Proof.
  intros Hstep calls. unfold run.
  induction calls as [|c calls IH]; simpl; [done|].
  intros s Hs. by apply IH, Hstep.
Qed.

Lemma removeObject_host id s : host (removeObject id s).2 = host s.
Proof. unfold removeObject. by destruct (managedObjects s !! id). Qed.

Lemma removeObject_animationId id s : animationId (removeObject id s).2 = animationId s.
Proof. unfold removeObject. by destruct (managedObjects s !! id). Qed.

Lemma removeObject_animatedObjects id s :
  animatedObjects (removeObject id s).2 = animatedObjects s.
Proof. unfold removeObject. by destruct (managedObjects s !! id). Qed.

Lemma call_singleLoop c s : singleLoop s → singleLoop (call c s).
Proof.
  destruct c; simpl; try done.
  - unfold singleLoop. by rewrite removeObject_host, removeObject_animationId.
  - apply singleLoop_startAnimation.
  - apply singleLoop_stopAnimation.
  - apply singleLoop_dispose.
  - apply singleLoop_runFrame.
Qed.

Lemma dispose_scene_NoDup s : NoDup (scene s) → NoDup (scene (dispose s)).
Proof.
  intros Hs. unfold dispose. destruct (isDisposed s); [done|]. simpl.
  rewrite stopAnimation_scene. by apply detach_all.
Qed.

Lemma call_scene_NoDup c s : NoDup (scene s) → NoDup (scene (call c s)).
Proof.
  destruct c; simpl; try done.
  - apply add_NoDup.
  - unfold removeObject. destruct (managedObjects s !! id); simpl; [|done].
    apply remove_NoDup.
  - unfold startAnimation. by destruct (animationId s).
  - by rewrite stopAnimation_scene.
  - apply dispose_scene_NoDup.
  - unfold runFrame. by destruct (decide _).
Qed.

Lemma map_set_keys {A} (k : string) (v : A) (m : list (string * A)) :
  (map_set k v m).*1 = if decide (k ∈ m.*1) then m.*1 else (m.*1 ++ [k])%list.
Proof.
  induction m as [|[k' v'] m IH]; [done|].
  cbn [map_set]. destruct (decide (k' = k)) as [->|Hne].
  - rewrite !fmap_cons. cbn [fst]. rewrite decide_True by left. done.
  - rewrite !fmap_cons. cbn [fst]. rewrite IH.
    destruct (decide (k ∈ m.*1)) as [Hin|Hout].
    + rewrite decide_True by (by right). done.
    + rewrite decide_False; [done|].
      rewrite not_elem_of_cons. split; [congruence | done].
Qed.

Lemma map_set_keys_NoDup {A} (k : string) (v : A) (m : list (string * A)) :
  NoDup m.*1 → NoDup (map_set k v m).*1.
Proof.
  intros Hm. rewrite map_set_keys. destruct (decide (k ∈ m.*1)); [done|].
  apply NoDup_app. split; [done|]. split; [|apply NoDup_singleton].
  by intros x Hx ->%list_elem_of_singleton.
Qed.

Lemma map_delete_keys {A} (k : string) (m : list (string * A)) :
  (map_delete k m).*1 = filter (λ k', k' ≠ k) m.*1.
Proof.
  unfold map_delete. induction m as [|[k' v'] m IH]; [done|].
  rewrite fmap_cons, !filter_cons. cbn [fst].
  destruct (decide (k' ≠ k)); [rewrite fmap_cons; cbn [fst]|]; by rewrite IH.
Qed.

Lemma call_animations_NoDup c s :
  NoDup (animatedObjects s).*1 → NoDup (animatedObjects (call c s)).*1.
Proof.
  destruct c; simpl; try done.
  - by rewrite removeObject_animatedObjects.
  - apply map_set_keys_NoDup.
  - intros Hs. rewrite map_delete_keys. by apply NoDup_filter.
  - unfold startAnimation. by destruct (animationId s).
  - by rewrite stopAnimation_animatedObjects.
  - by rewrite dispose_animatedObjects.
  - unfold runFrame. by destruct (decide _).
Qed.

Lemma call_isDisposed c s : isDisposed s = true → isDisposed (call c s) = true.
Proof.
  destruct c; simpl; try done.
  - unfold removeObject. by destruct (managedObjects s !! id).
  - unfold startAnimation. by destruct (animationId s).
  - unfold stopAnimation. by destruct (animationId s).
  - intros _. apply dispose_isDisposed.
  - unfold runFrame. by destruct (decide _).
Qed.

Lemma call_isInitialized c s : isInitialized s = true → isInitialized (call c s) = true.
Proof.
  destruct c; simpl; try done.
  - unfold removeObject. by destruct (managedObjects s !! id).
  - unfold startAnimation. by destruct (animationId s).
  - unfold stopAnimation. by destruct (animationId s).
  - unfold dispose. destruct (isDisposed s); [done|]. simpl.
    unfold stopAnimation. by destruct (animationId s).
  - unfold runFrame. by destruct (decide _).
Qed.

End Runs.

(** X6: whatever the calls made on a manager constructed on a page with
    no frame request pending, and whichever of its requests the browser
    runs in between, the requests scheduled are the one whose handle the
    manager holds and no other: there is never more than one frame loop. *)
Theorem run_single_loop calls autoResize h :
  scheduled h = [] →
  let s := run calls (newFoundationScene autoResize h) in
  singleLoop s ∧ (length (scheduled (host s)) ≤ 1)%nat.
Proof.
  intros Hh s.
  assert (Hs : singleLoop s).
  { apply run_invariant; [apply call_singleLoop|].
    unfold singleLoop. by destruct autoResize. }
  split; [done|]. unfold singleLoop in Hs. rewrite Hs.
  destruct (animationId s); simpl; lia.
Qed.

Lemma run_single_loop_witness :
  (length (scheduled (host (run [StartAnimation; Frame 0; StartAnimation; Frame 1]
                                (newFoundationScene true freshHost)))) ≤ 1)%nat.
Proof.
  apply (run_single_loop [StartAnimation; Frame 0; StartAnimation; Frame 1] true freshHost).
  reflexivity.
Defined.

(** X7: the two flags never go back: over every sequence of calls an
    initialized manager stays initialized and a disposed manager stays
    disposed. *)
Theorem run_flags calls s :
  (isInitialized s = true → isInitialized (run calls s) = true)
  ∧ (isDisposed s = true → isDisposed (run calls s) = true).
Proof.
  split.
  - apply (run_invariant (λ s, isInitialized s = true)), call_isInitialized.
  - apply (run_invariant (λ s, isDisposed s = true)), call_isDisposed.
Qed.

(** X8: the scene graph of a manager never holds a node twice: every
    sequence of calls keeps the children free of duplicates. *)
Theorem run_scene_NoDup calls s :
  NoDup (scene s) → NoDup (scene (run calls s)).
Proof. apply (run_invariant (λ s, NoDup (scene s))), call_scene_NoDup. Qed.

Lemma run_scene_NoDup_witness :
  NoDup (scene (run [AddObject cube None; AddObject cube (Some "again")] liveScene)).
Proof. apply run_scene_NoDup. constructor. Defined.

(** X9: the animation registry never holds two closures under one
    identifier: every sequence of calls keeps its keys free of
    duplicates, so that a frame runs one closure for each identifier. *)
Theorem run_animations_NoDup calls s :
  NoDup (animatedObjects s).*1 → NoDup (animatedObjects (run calls s)).*1.
Proof.
  apply (run_invariant (λ s, NoDup (animatedObjects s).*1)), call_animations_NoDup.
Qed.

Lemma run_animations_NoDup_witness :
  NoDup (animatedObjects (run [AddAnimation "spin" 0%nat; AddAnimation "spin" 1%nat]
                              liveScene)).*1.
Proof. apply run_animations_NoDup. constructor. Defined.

(** ** The animation registry *)

Section Animations.
Context {A : Type}.
Implicit Types (k : string) (v : A) (m : list (string * A)).

Lemma map_set_elem_of k v m k' v' :
  NoDup m.*1 →
  (k', v') ∈ map_set k v m ↔ (k' = k ∧ v' = v) ∨ (k' ≠ k ∧ (k', v') ∈ m).
Proof.
  induction m as [|[k0 v0] m IH]; intros Hm.
  - cbn [map_set]. rewrite list_elem_of_singleton. split.
    + intros [= -> ->]. by left.
    + intros [[-> ->]|[_ ?%elem_of_nil]]; done.
  - rewrite fmap_cons in Hm. cbn [fst] in Hm. apply NoDup_cons in Hm as [Hk0 Hm].
    cbn [map_set]. destruct (decide (k0 = k)) as [->|Hne].
    + rewrite !elem_of_cons. split.
      * intros [[= -> ->]|Hin]; [by left|]. right. split; [|by right].
        intros ->. apply Hk0. apply list_elem_of_fmap. by exists (k, v').
      * intros [[-> ->]|[Hne [[= ? ?]|Hin]]]; [by left | done | by right].
    + rewrite !elem_of_cons, IH by done. split.
      * intros [[= -> ->]|[?|[? ?]]]; [right; split; [done | by left] | by left |].
        right. split; [done | by right].
      * intros [?|[? [?|?]]]; [right; by left | by left | right; by right].
Qed.

Lemma map_delete_elem_of k m k' v' :
  (k', v') ∈ map_delete k m ↔ (k', v') ∈ m ∧ k' ≠ k.
Proof. unfold map_delete. rewrite list_elem_of_filter. simpl. tauto. Qed.

Lemma map_delete_absent k m : k ∉ m.*1 → map_delete k m = m.
Proof.
  unfold map_delete. induction m as [|[k0 v0] m IH]; [done|].
  rewrite fmap_cons, not_elem_of_cons, filter_cons. cbn [fst].
  intros [Hne Hout]. destruct (decide (k0 ≠ k)) as [|Heq]; [by rewrite IH|].
  exfalso. apply Heq. by intros ->.
Qed.

Lemma map_set_absent k v m : k ∉ m.*1 → map_set k v m = (m ++ [(k, v)])%list.
Proof.
  induction m as [|[k0 v0] m IH]; [done|].
  rewrite fmap_cons, not_elem_of_cons. cbn [fst map_set]. intros [Hne Hout].
  destruct (decide (k0 = k)); [congruence|]. by rewrite IH.
Qed.

Lemma map_delete_set k v m : k ∉ m.*1 → map_delete k (map_set k v m) = m.
Proof.
  intros Hout. rewrite map_set_absent by done. unfold map_delete.
  rewrite filter_app, filter_cons, filter_nil. cbn [fst].
  destruct (decide (k ≠ k)); [done|]. rewrite app_nil_r.
  by apply map_delete_absent.
Qed.

End Animations.

(** X10: [addAnimation] overwrites. With the keys of the registry free
    of duplicates, the registry afterwards holds the new closure under
    the identifier and no other closure under it, and the entries of all
    other identifiers as before; an identifier already present keeps its
    place in the order of the calls, a new one goes last. *)
Theorem addAnimation_entries s id fn :
  NoDup (animatedObjects s).*1 →
  (∀ k g, (k, g) ∈ animatedObjects (addAnimation id fn s)
          ↔ (k = id ∧ g = fn) ∨ (k ≠ id ∧ (k, g) ∈ animatedObjects s))
  ∧ (animatedObjects (addAnimation id fn s)).*1
    = (if decide (id ∈ (animatedObjects s).*1) then (animatedObjects s).*1
       else (animatedObjects s).*1 ++ [id])%list.
Proof.
  intros Hs. split.
  - intros k g. by apply map_set_elem_of.
  - apply map_set_keys.
Qed.

Lemma addAnimation_entries_witness :
  (animatedObjects (addAnimation "spin" 7%nat (addAnimation "spin" spin liveScene))).*1
  = ["spin"].
Proof.
  destruct (addAnimation_entries (addAnimation "spin" spin liveScene) "spin" 7%nat)
    as [_ Hkeys].
  - vm_compute. repeat constructor. inversion 1.
  - rewrite Hkeys. reflexivity.
Defined.

(** X11: [removeAnimation] removes the entry of the identifier and
    nothing else, and on an identifier that is not registered it leaves
    the manager as it was. *)
Theorem removeAnimation_entries s id :
  (∀ k g, (k, g) ∈ animatedObjects (removeAnimation id s)
          ↔ (k, g) ∈ animatedObjects s ∧ k ≠ id)
  ∧ (id ∉ (animatedObjects s).*1 → removeAnimation id s = s).
Proof.
  split.
  - intros k g. apply map_delete_elem_of.
  - intros Hout. destruct s. unfold removeAnimation, set_animatedObjects. simpl in *.
    by rewrite map_delete_absent.
Qed.

(** X12: registering a closure under an identifier not in use and then
    removing it gives back the manager as it was. *)
Theorem addAnimation_removeAnimation s id fn :
  id ∉ (animatedObjects s).*1 →
  removeAnimation id (addAnimation id fn s) = s.
Proof.
  intros Hout. destruct s. unfold removeAnimation, addAnimation, set_animatedObjects.
  simpl in *. by rewrite map_delete_set.
Qed.

Lemma addAnimation_removeAnimation_witness :
  removeAnimation "spin" (addAnimation "spin" spin liveScene) = liveScene.
Proof. apply addAnimation_removeAnimation. vm_compute. inversion 1. Defined.

(** ** The object registry, further *)

(** X13: [removeObject] on a registered identifier, the scene holding no
    node twice: the answer is [true], the identifier is no longer
    registered, the other identifiers keep their nodes, the node is no
    longer in the scene graph and the other children are as before. *)
Theorem removeObject_registered s id object :
  managedObjects s !! id = Some object →
  NoDup (scene s) →
  (removeObject id s).1 = true
  ∧ managedObjects (removeObject id s).2 !! id = None
  ∧ (∀ k, k ≠ id → managedObjects (removeObject id s).2 !! k = managedObjects s !! k)
  ∧ (∀ n, n ∈ scene (removeObject id s).2 ↔ n ∈ scene s ∧ n ≠ object).
Proof.
  intros Hid Hnodup. rewrite (removeObject_present id object s Hid). simpl.
  split; [done|]. split; [apply lookup_delete_eq|]. split.
  - intros k Hk. by apply lookup_delete_ne.
  - intros n. by apply remove_elem_of.
Qed.

Lemma removeObject_registered_witness :
  let s := (addObject cube (Some "cube") liveScene).2 in
  (removeObject "cube" s).1 = true ∧ managedObjects (removeObject "cube" s).2 !! "cube" = None.
Proof.
  intros s.
  destruct (removeObject_registered s "cube" cube) as (Htrue & Hgone & _).
  - reflexivity.
  - vm_compute. repeat constructor. inversion 1.
  - split; [exact Htrue | exact Hgone].
Defined.

(** X14: what [addObject] leaves alone and what it moves: the entries of
    the other identifiers are as before, the children are the node and
    the children of before, and the node is the last child, also when it
    was a child already. *)
Theorem addObject_frame s object oid :
  (∀ k, k ≠ (addObject object oid s).1 →
        managedObjects (addObject object oid s).2 !! k = managedObjects s !! k)
  ∧ (∀ n, n ∈ scene (addObject object oid s).2 ↔ n = object ∨ n ∈ scene s)
  ∧ last (scene (addObject object oid s).2) = Some object
  ∧ animatedObjects (addObject object oid s).2 = animatedObjects s
  ∧ animationId (addObject object oid s).2 = animationId s
  ∧ host (addObject object oid s).2 = host s.
Proof.
  rewrite addObject_registry, addObject_scene, addObject_id.
  split; [intros k Hk; by rewrite lookup_insert_ne|].
  split; [intros n; apply add_elem_of|].
  split; [|done]. unfold add. apply last_snoc.
Qed.

(** ** Construction *)

(** X15: [initialize] runs once: it sets the initialized flag, and a
    second call, whatever the [autoResize] setting, changes nothing. A
    manager just constructed is initialized, not disposed, its canvas is
    mounted, its registries and scene are empty, and it holds a resize
    handler exactly when [autoResize] is set. *)
Theorem initialize_once autoResize autoResize' s h :
  isInitialized (initialize autoResize s) = true
  ∧ initialize autoResize' (initialize autoResize s) = initialize autoResize s
  ∧ isInitialized (newFoundationScene autoResize h) = true
  ∧ isDisposed (newFoundationScene autoResize h) = false
  ∧ canvasMounted (host (newFoundationScene autoResize h)) = true
  ∧ resizeHandler (newFoundationScene autoResize h) = autoResize
  ∧ managedObjects (newFoundationScene autoResize h) = ∅
  ∧ animatedObjects (newFoundationScene autoResize h) = []
  ∧ scene (newFoundationScene autoResize h) = []
  ∧ animationId (newFoundationScene autoResize h) = None.
Proof.
  assert (Hinit : isInitialized (initialize autoResize s) = true).
  { unfold initialize. destruct (isInitialized s) eqn:Hs; [done|]. by destruct autoResize. }
  split; [done|]. split.
  - unfold initialize at 1. by rewrite Hinit.
  - by destruct autoResize.
Qed.

(** ** Merging configurations *)

Section MergeConfig.
Context {V : Type}.
Implicit Types (d : Config.FoundationSceneConfig V) (u : Config.PartialConfig V).

Lemma spread_lookup (a b : gmap string V) k :
  Config.spread a b !! k = match b !! k with Some v => Some v | None => a !! k end.
Proof.
  unfold Config.spread. destruct (b !! k) as [v|] eqn:Hb.
  - by apply lookup_union_Some_l.
  - rewrite lookup_union_r; done.
Qed.

Lemma spread_empty (a : gmap string V) : Config.spread a ∅ = a.
Proof. unfold Config.spread. apply (left_id_L ∅ (∪)). Qed.

Lemma spread_twice (a b : gmap string V) :
  Config.spread (Config.spread a b) b = Config.spread a b.
Proof. unfold Config.spread. by rewrite (assoc_L (∪)), (idemp_L (∪)). Qed.

Lemma spread_self (a : gmap string V) : Config.spread a a = a.
Proof. unfold Config.spread. apply (idemp_L (∪)). Qed.

End MergeConfig.

(** X16: in a merged configuration a property of a section is the
    user's when the user's section has it and the default's otherwise;
    the same holds for the properties outside the three sections. The
    user's value is taken whole: a nested object is not merged with the
    default's. *)
Theorem mergeConfig_lookup {V} (d : Config.FoundationSceneConfig V)
    (u : Config.PartialConfig V) k :
  Config.camera (Config.mergeConfig d u) !! k
  = match Config.user_camera u ≫= (.!! k) with
    | Some v => Some v
    | None => Config.camera d !! k
    end
  ∧ Config.renderer (Config.mergeConfig d u) !! k
    = match Config.user_renderer u ≫= (.!! k) with
      | Some v => Some v
      | None => Config.renderer d !! k
      end
  ∧ Config.scene (Config.mergeConfig d u) !! k
    = match Config.user_scene u ≫= (.!! k) with
      | Some v => Some v
      | None => Config.scene d !! k
      end
  ∧ Config.others (Config.mergeConfig d u) !! k
    = match Config.user_others u !! k with
      | Some v => Some v
      | None => Config.others d !! k
      end.
Proof.
  unfold Config.mergeConfig. simpl. rewrite !spread_lookup.
  destruct (Config.user_camera u), (Config.user_renderer u), (Config.user_scene u);
    simpl; by rewrite ?lookup_empty.
Qed.

(** X17: merging is neutral on an empty user configuration, and merging
    the same user configuration a second time changes nothing; merging
    a configuration into itself gives it back. *)
Theorem mergeConfig_laws {V} (d : Config.FoundationSceneConfig V)
    (u : Config.PartialConfig V) :
  Config.mergeConfig d (Config.mkPartialConfig None None None ∅) = d
  ∧ Config.mergeConfig (Config.mergeConfig d u) u = Config.mergeConfig d u
  ∧ Config.mergeConfig d (Config.asPartial d) = d.
Proof.
  destruct d as [dc dr ds do]. unfold Config.mergeConfig. simpl.
  split; [by rewrite !spread_empty|]. split.
  - by rewrite !spread_twice.
  - by rewrite !spread_self.
Qed.

(** ** Scene construction *)

(** X18: [createScene] reads of a fog configuration the colour and the
    near and far distances only: two configurations that agree on these
    give the same scene, whatever their fog type and density, and the
    fog made is always the linear one, with near 1 and far 1000 where
    the configuration has none. A missing or null background leaves the
    scene without one. *)
Theorem createScene_fog bg f f' :
  SceneFactory.fog_color f = SceneFactory.fog_color f' →
  SceneFactory.fog_near f = SceneFactory.fog_near f' →
  SceneFactory.fog_far f = SceneFactory.fog_far f' →
  SceneFactory.createScene (SceneFactory.mkSceneConfig bg (Some f))
  = SceneFactory.createScene (SceneFactory.mkSceneConfig bg (Some f'))
  ∧ SceneFactory.scene_fog (SceneFactory.createScene (SceneFactory.mkSceneConfig bg (Some f)))
    = Some (SceneFactory.mkFog (SceneFactory.fog_color f)
              (default 1 (SceneFactory.fog_near f))
              (default 1000 (SceneFactory.fog_far f)))
  ∧ SceneFactory.scene_background
      (SceneFactory.createScene (SceneFactory.mkSceneConfig bg (Some f))) = bg.
Proof.
  intros Hc Hn Hf. unfold SceneFactory.createScene. simpl.
  rewrite Hc, Hn, Hf. by destruct bg.
Qed.

Lemma createScene_fog_witness :
  SceneFactory.createScene
    (SceneFactory.mkSceneConfig None
       (Some (SceneFactory.mkFogConfig "exponential" 255 None None (Some 0.5))))
  = SceneFactory.createScene
      (SceneFactory.mkSceneConfig None
         (Some (SceneFactory.mkFogConfig "linear" 255 None None None))).
Proof.
  by destruct (createScene_fog None
                 (SceneFactory.mkFogConfig "exponential" 255 None None (Some 0.5))
                 (SceneFactory.mkFogConfig "linear" 255 None None None)) as [H _].
Defined.

(** ** The factories *)

Section Factories.
Import TypedGeometryFactory.

Lemma GeometryTypes_spec type :
  type ∈ GeometryTypes
  ↔ type = "box" ∨ type = "sphere" ∨ type = "cone" ∨ type = "cylinder"
    ∨ type = "torus" ∨ type = "plane".
Proof.
  unfold GeometryTypes. rewrite !elem_of_cons, elem_of_nil. tauto.
Qed.

Lemma MaterialTypes_spec type :
  type ∈ MaterialTypes
  ↔ type = "basic" ∨ type = "lambert" ∨ type = "phong" ∨ type = "standard".
Proof.
  unfold MaterialTypes. rewrite !elem_of_cons, elem_of_nil. tauto.
Qed.

Lemma createGeometry_known type config :
  type ∈ GeometryTypes →
  ∃ g, createGeometry type config = Ok g ∧ GeometryInstance type g.
Proof.
  rewrite GeometryTypes_spec.
  intros [-> | [-> | [-> | [-> | [-> | ->]]]]]; eexists; (split; [reflexivity|]);
    unfold GeometryInstance; simpl; eauto.
Qed.

Lemma createGeometry_unknown type config :
  type ∉ GeometryTypes →
  createGeometry type config = Throw ("Unsupported geometry type: " ++ type).
Proof.
  rewrite GeometryTypes_spec. intros Hout. unfold createGeometry.
  repeat (destruct (decide _); [exfalso; apply Hout; tauto|]). done.
Qed.

Lemma createMaterial_known type config :
  type ∈ MaterialTypes →
  ∃ m, createMaterial type config = Ok m ∧ MaterialInstance type m.
Proof.
  rewrite MaterialTypes_spec.
  intros [-> | [-> | [-> | ->]]]; eexists; (split; [reflexivity|]);
    unfold MaterialInstance; simpl; eauto.
Qed.

Lemma createMaterial_unknown type config :
  type ∉ MaterialTypes →
  createMaterial type config = Throw ("Unsupported material type : " ++ type).
Proof.
  rewrite MaterialTypes_spec. intros Hout. unfold createMaterial.
  repeat (destruct (decide _); [exfalso; apply Hout; tauto|]). done.
Qed.

End Factories.

(** X19: [createGeometry] returns a geometry exactly for the six types
    of [GeometryType], and what it returns is an instance of the class
    that [GeometryInstance] promises for the type. *)
Theorem createGeometry_total type config :
  (type ∈ TypedGeometryFactory.GeometryTypes
   ↔ ∃ g, TypedGeometryFactory.createGeometry type config = Ok g)
  ∧ (∀ g, TypedGeometryFactory.createGeometry type config = Ok g →
          GeometryInstance type g).
Proof.
  destruct (decide (type ∈ TypedGeometryFactory.GeometryTypes)) as [Hin|Hout].
  - destruct (createGeometry_known type config Hin) as (g & Hg & Hinst). split.
    + split; [eauto | done].
    + intros g' Hg'. rewrite Hg in Hg'. by injection Hg' as <-.
  - pose proof (createGeometry_unknown type config Hout) as Hthrow. split.
    + split; [done|]. intros [g Hg]. rewrite Hthrow in Hg. discriminate Hg.
    + intros g Hg. rewrite Hthrow in Hg. discriminate Hg.
Qed.

(** X20: [createMaterial] returns a material exactly for the four types
    of [MaterialType], and what it returns is an instance of the class
    that [MaterialInstance] promises for the type. *)
Theorem createMaterial_total type config :
  (type ∈ TypedGeometryFactory.MaterialTypes
   ↔ ∃ m, TypedGeometryFactory.createMaterial type config = Ok m)
  ∧ (∀ m, TypedGeometryFactory.createMaterial type config = Ok m →
          MaterialInstance type m).
Proof.
  destruct (decide (type ∈ TypedGeometryFactory.MaterialTypes)) as [Hin|Hout].
  - destruct (createMaterial_known type config Hin) as (m & Hm & Hinst). split.
    + split; [eauto | done].
    + intros m' Hm'. rewrite Hm in Hm'. by injection Hm' as <-.
  - pose proof (createMaterial_unknown type config Hout) as Hthrow. split.
    + split; [done|]. intros [m Hm]. rewrite Hthrow in Hm. discriminate Hm.
    + intros m Hm. rewrite Hthrow in Hm. discriminate Hm.
Qed.

(** X21: [createMesh] returns a mesh exactly when the geometry type and
    the material type are both known. With an unknown geometry type the
    error is the geometry factory's, whatever the material type; with a
    known geometry type and an unknown material type it is the material
    factory's. *)
Theorem createMesh_errors config :
  ((∃ mesh, TypedObjectFactory.createMesh config = Ok mesh)
   ↔ TypedObjectFactory.geometry_type config ∈ TypedGeometryFactory.GeometryTypes
     ∧ TypedObjectFactory.material_type config ∈ TypedGeometryFactory.MaterialTypes)
  ∧ (TypedObjectFactory.geometry_type config ∉ TypedGeometryFactory.GeometryTypes →
     TypedObjectFactory.createMesh config
     = Throw ("Unsupported geometry type: " ++ TypedObjectFactory.geometry_type config))
  ∧ (TypedObjectFactory.geometry_type config ∈ TypedGeometryFactory.GeometryTypes →
     TypedObjectFactory.material_type config ∉ TypedGeometryFactory.MaterialTypes →
     TypedObjectFactory.createMesh config
     = Throw ("Unsupported material type : " ++ TypedObjectFactory.material_type config)).
Proof.
  unfold TypedObjectFactory.createMesh.
  set (gp := default _ (TypedObjectFactory.geometry_config config)).
  set (mp := default _ (TypedObjectFactory.material_config config)).
  destruct (decide (TypedObjectFactory.geometry_type config
                    ∈ TypedGeometryFactory.GeometryTypes)) as [Hg|Hg].
  - destruct (createGeometry_known _ gp Hg) as (g & Hgeo & _). rewrite Hgeo. simpl.
    destruct (decide (TypedObjectFactory.material_type config
                      ∈ TypedGeometryFactory.MaterialTypes)) as [Hm|Hm].
    + destruct (createMaterial_known _ mp Hm) as (m & Hmat & _). rewrite Hmat. simpl.
      split; [split; [done | eauto]|]. split; [done|]. done.
    + rewrite (createMaterial_unknown _ mp Hm). simpl.
      split; [|split; done]. split; [by intros [? ?] | by intros [_ ?]].
  - rewrite (createGeometry_unknown _ gp Hg). simpl.
    split; [|split; done]. split; [by intros [? ?] | by intros [? _]].
Qed.

Lemma createMesh_errors_witness :
  TypedObjectFactory.createMesh
    (TypedObjectFactory.mkObjectConfig "pyramid" None "toon" None None None None)
  = Throw "Unsupported geometry type: pyramid"
  ∧ TypedObjectFactory.createMesh
      (TypedObjectFactory.mkObjectConfig "box" None "toon" None None None None)
    = Throw "Unsupported material type : toon".
Proof.
  split.
  - destruct (createMesh_errors
                (TypedObjectFactory.mkObjectConfig "pyramid" None "toon" None None None None))
      as (_ & Hgeo & _).
    apply Hgeo. apply (bool_decide_unpack _). vm_compute. exact I.
  - destruct (createMesh_errors
                (TypedObjectFactory.mkObjectConfig "box" None "toon" None None None None))
      as (_ & _ & Hmat).
    apply Hmat.
    + apply (bool_decide_unpack _). vm_compute. exact I.
    + apply (bool_decide_unpack _). vm_compute. exact I.
Defined.

(** X22: [createMeshes] returns the meshes of the configurations, one
    for each and in their order, when every [createMesh] succeeds; when
    one throws, the error of [createMeshes] is that of the first
    configuration that throws and no mesh is returned. *)
Theorem createMeshes_all configs :
  (∀ meshes, TypedObjectFactory.createMeshes configs = Ok meshes ↔
     Forall2 (λ c mesh, TypedObjectFactory.createMesh c = Ok mesh) configs meshes)
  ∧ (∀ before c after message,
       configs = (before ++ c :: after)%list →
       Forall (λ c', ∃ mesh, TypedObjectFactory.createMesh c' = Ok mesh) before →
       TypedObjectFactory.createMesh c = Throw message →
       TypedObjectFactory.createMeshes configs = Throw message).
Proof.
  split.
  - induction configs as [|c configs IH]; intros meshes;
      cbn [TypedObjectFactory.createMeshes].
    + split; [intros [= <-]; constructor | by intros ->%Forall2_nil_inv_l].
    + destruct (TypedObjectFactory.createMesh c) as [mesh|msg] eqn:Hc; cbn [bind].
      * destruct (TypedObjectFactory.createMeshes configs) as [rest|msg] eqn:Hrest;
          cbn [bind].
        -- split.
           ++ intros [= <-]. constructor; [done|]. by apply IH.
           ++ intros (mesh' & rest' & Hhd & Htl & ->)%Forall2_cons_inv_l.
              apply IH in Htl. congruence.
        -- split; [done|].
           intros (mesh' & rest' & Hhd & Htl & ->)%Forall2_cons_inv_l.
           apply IH in Htl. discriminate Htl.
      * split; [done|].
        intros (mesh' & rest' & Hhd & Htl & ->)%Forall2_cons_inv_l. congruence.
  - intros before c after message -> Hbefore Hc.
    induction Hbefore as [|c' before [mesh Hmesh] _ IH];
      cbn [app TypedObjectFactory.createMeshes].
    + by rewrite Hc.
    + by rewrite Hmesh, IH.
Qed.

Lemma createMeshes_all_witness :
  TypedObjectFactory.createMeshes
    [TypedObjectFactory.mkObjectConfig "box" None "basic" None None None None;
     TypedObjectFactory.mkObjectConfig "pyramid" None "basic" None None None None;
     TypedObjectFactory.mkObjectConfig "box" None "toon" None None None None]
  = Throw "Unsupported geometry type: pyramid".
Proof.
  destruct (createMeshes_all
    [TypedObjectFactory.mkObjectConfig "box" None "basic" None None None None;
     TypedObjectFactory.mkObjectConfig "pyramid" None "basic" None None None None;
     TypedObjectFactory.mkObjectConfig "box" None "toon" None None None None])
    as [_ Hfirst].
  apply (Hfirst
    [TypedObjectFactory.mkObjectConfig "box" None "basic" None None None None]
    (TypedObjectFactory.mkObjectConfig "pyramid" None "basic" None None None None)
    [TypedObjectFactory.mkObjectConfig "box" None "toon" None None None None]).
  - reflexivity.
  - constructor; [|constructor]. eexists. reflexivity.
  - reflexivity.
Defined.

(** X23: for [createMesh] an empty part is as good as a missing one: a
    transform whose position, rotation and scale are all empty objects
    gives the mesh of no transform, the empty name that of no name, and
    empty geometry and material properties those of none. *)
Theorem createMesh_omitted gt gc mt mc tr nm ud :
  let empty := TypedObjectFactory.mkPartialVector3 None None None in
  TypedObjectFactory.createMesh
    (TypedObjectFactory.mkObjectConfig gt gc mt mc
       (Some (TypedObjectFactory.mkTransform (Some empty) (Some empty) (Some empty))) nm ud)
  = TypedObjectFactory.createMesh (TypedObjectFactory.mkObjectConfig gt gc mt mc None nm ud)
  ∧ TypedObjectFactory.createMesh
      (TypedObjectFactory.mkObjectConfig gt gc mt mc tr (Some "") ud)
    = TypedObjectFactory.createMesh (TypedObjectFactory.mkObjectConfig gt gc mt mc tr None ud)
  ∧ TypedObjectFactory.createMesh
      (TypedObjectFactory.mkObjectConfig gt (Some TypedObjectFactory.noGeometryProps)
         mt (Some TypedObjectFactory.noMaterialProps) tr nm ud)
    = TypedObjectFactory.createMesh (TypedObjectFactory.mkObjectConfig gt None mt None tr nm ud).
Proof.
  intros empty. unfold TypedObjectFactory.createMesh. simpl.
  split; [|split; [|done]].
  - destruct (TypedGeometryFactory.createGeometry gt _); [|done]. simpl.
    destruct (TypedGeometryFactory.createMaterial mt _); [|done]. simpl.
    destruct nm as [n|]; [destruct (decide (n = ""))|]; by destruct ud.
  - destruct (TypedGeometryFactory.createGeometry gt _); [|done]. simpl.
    by destruct (TypedGeometryFactory.createMaterial mt _).
Qed.

(** ** Helpers *)

(** X24: every coordinate of the vector [createVector3] returns is
    finite, whatever the arguments; finite arguments come back
    unchanged, a missing, infinite or NaN argument comes back as 0; and
    the vector made from the coordinates of a vector it returned is that
    vector. *)
Theorem createVector3_finite x y z :
  let v := TypedHelpers.createVector3 x y z in
  TypedHelpers.isFinite (TypedHelpers.x v) = true
  ∧ TypedHelpers.isFinite (TypedHelpers.y v) = true
  ∧ TypedHelpers.isFinite (TypedHelpers.z v) = true
  ∧ TypedHelpers.x v
    = (match x with Some (TypedHelpers.Finite q) => TypedHelpers.Finite q
       | _ => TypedHelpers.Finite 0 end)
  ∧ TypedHelpers.y v
    = (match y with Some (TypedHelpers.Finite q) => TypedHelpers.Finite q
       | _ => TypedHelpers.Finite 0 end)
  ∧ TypedHelpers.z v
    = (match z with Some (TypedHelpers.Finite q) => TypedHelpers.Finite q
       | _ => TypedHelpers.Finite 0 end)
  ∧ TypedHelpers.createVector3 (Some (TypedHelpers.x v)) (Some (TypedHelpers.y v))
      (Some (TypedHelpers.z v)) = v.
Proof.
  destruct x as [[]|], y as [[]|], z as [[]|]; by repeat split.
Qed.

(** ** Camera construction, further *)



(** X26: the optional parameters of a camera configuration. A type
    other than ["perspective"] makes [createCamera] ignore the field of
    view and the aspect ratio; for the type ["perspective"] a missing
    field of view is 50 and a missing aspect ratio is 1, the defaults of
    the three.js constructor. *)
Theorem createCamera_optional ty f a f' a' n fr p t h :
  (ty ≠ "perspective" →
   Camera.createCamera (Camera.mkCameraConfig ty f a n fr p t) h
   = Camera.createCamera (Camera.mkCameraConfig ty f' a' n fr p t) h)
  ∧ Camera.createCamera (Camera.mkCameraConfig "perspective" None None n fr p t) h
    = Camera.createCamera (Camera.mkCameraConfig "perspective" (Some 50) (Some 1) n fr p t) h.
Proof.
  split; [|done]. intros Hty. unfold Camera.createCamera. simpl.
  by destruct (decide (ty = "perspective")).
Qed.

Lemma createCamera_optional_witness :
  Camera.createCamera (Camera.mkCameraConfig "orthographic" (Some 75) (Some (16 # 9))
                         0.1 1000 1%positive None) sampleHeap
  = Camera.createCamera (Camera.mkCameraConfig "orthographic" None None
                           0.1 1000 1%positive None) sampleHeap.
Proof.
  destruct (createCamera_optional "orthographic" (Some 75) (Some (16 # 9)) None None
              0.1 1000 1%positive None sampleHeap) as [Hortho _].
  apply Hortho. discriminate.
Defined.
